(** * Token issuance and refresh rotation of the dispatcher backend

    A shallow embedding of [dispatcher/backend/src/routes/auth/__init__.py]:
    the password login ([credentials]) and the refresh rotation
    ([refresh_token]) handlers, run against an explicit model of the
    database session, the clock and the token generator. *)

From stdpp Require Import base option list gmap strings.
From Stdlib Require Import ZArith Lia.

Local Open Scope string_scope.
Local Open Scope Z_scope.

(** ** Data model *)

(** The two ORM classes the handlers touch ([db.models], imported as [dbm]).
    Only the columns read or written by the handlers are kept.  Instants
    ([expire_time], the clock) are integers, identifiers are integers,
    tokens are strings. *)
Module dbm.
Record User := mkUser {
  id : Z;
  username : string;
  password_hash : string }.

Record Refreshtoken := mkRefreshtoken {
  token : string;
  user_id : Z;
  expire_time : Z }.
End dbm.

#[global] Instance User_eq_dec : EqDecision dbm.User.
Proof. solve_decision. Defined.

#[global] Instance Refreshtoken_eq_dec : EqDecision dbm.Refreshtoken.
Proof. solve_decision. Defined.

(** The persistent store: one table per ORM class, rows in storage order. *)
Record Db := mkDb {
  user_table : list dbm.User;
  refresh_token_table : list dbm.Refreshtoken }.

(** [flask.request], as far as the handlers look at it.  [content_type] is
    [None] when the request carries no Content-Type header; [form] and
    [headers] are read through [get] only, which a finite map answers
    (for [headers], keyed by the name the handler asks for). *)
Module request.
Record t := mk {
  content_type : option string;
  form : gmap string string;
  headers : gmap string string }.
End request.

(** A JSON scalar of the response body. *)
Inductive Json :=
  | JString (s : string)
  | JInt (n : Z).

(** [flask.Response] as produced by [jsonify]: the members of the JSON
    object in insertion order, and the response headers. *)
Module Response.
Record t := mk {
  json : list (string * Json);
  headers : gmap string string }.
End Response.

(** What a handler can raise.  [BadRequest] and [Unauthorized] are the two
    [routes.errors] classes; [TypeError] is Python's, for [in] applied to
    [None]; [MultipleResultsFound] is what [scalar_one_or_none] raises on
    more than one row; [IntegrityError] is the store rejecting a row. *)
Inductive Exception :=
  | BadRequest (message : string)
  | Unauthorized (message : string)
  | TypeError
  | MultipleResultsFound
  | IntegrityError.

Inductive Outcome (A : Type) :=
  | Returned (a : A)
  | Raised (e : Exception).
Arguments Returned {A} a.
Arguments Raised {A} e.

(** ** The handler monad: state and exceptions *)

(** The mutable world of a handler: the database as the open session sees
    it, how many times the clock has been read and how many tokens have
    been drawn. *)
Record World := mkWorld {
  db : Db;
  ticks : nat;
  draws : nat }.

Definition M (A : Type) : Type := World → Outcome A * World.

#[global] Instance M_ret : MRet M := λ A a w, (Returned a, w).

#[global] Instance M_bind : MBind M := λ A B f m w,
  match m w with
  | (Returned a, w') => f a w'
  | (Raised e, w') => (Raised e, w')
  end.

Definition raise {A} (e : Exception) : M A := λ w, (Raised e, w).

(** Python's [x in s] on strings: [x] occurs in [s] as a substring. *)
Fixpoint str_in (x s : string) : bool :=
  if String.prefix x s then true
  else match s with
       | EmptyString => false
       | String _ s' => str_in x s'
       end.

(** *** Session operations *)

(** [session.execute(sa.select(C).where(p))]: the rows of the table
    satisfying [p], in storage order. *)
Definition select_where {A} (table : Db → list A) (p : A → Prop)
    `{∀ x, Decision (p x)} : M (list A) :=
  λ w, (Returned (filter p (table (db w))), w).

(** [Result.scalar_one_or_none()]. *)
Definition scalar_one_or_none {A} (rows : list A) : M (option A) :=
  match rows with
  | [] => mret None
  | [row] => mret (Some row)
  | _ => raise MultipleResultsFound
  end.

Definition set_refresh_tokens (rows : list dbm.Refreshtoken) (w : World) : World :=
  {| db := {| user_table := user_table (db w); refresh_token_table := rows |};
     ticks := ticks w;
     draws := draws w |}.

(** [session.delete(row)] for a [Refreshtoken] row: the row is identified
    by its token, the key of the table. *)
Definition session_delete (row : dbm.Refreshtoken) : M () :=
  λ w, (Returned (),
        set_refresh_tokens
          (filter (λ r, dbm.token r ≠ dbm.token row) (refresh_token_table (db w))) w).

(** [session.add(row)] for a [Refreshtoken] row.  The token is the unique
    key of the table: a row whose token is already stored is rejected by
    the store and the table is left as it was. *)
Definition session_add (row : dbm.Refreshtoken) : M () :=
  λ w,
    let rows := refresh_token_table (db w) in
    if decide (dbm.token row ∈ dbm.token <$> rows)
    then (Raised IntegrityError, w)
    else (Returned (), set_refresh_tokens ((rows ++ [row])%list) w).

(** [session.execute(sa.delete(dbm.Refreshtoken).where(expire_time < now))]. *)
Definition delete_expired (now : Z) : M () :=
  λ w, (Returned (),
        set_refresh_tokens
          (filter (λ r, ¬ (dbm.expire_time r < now)) (refresh_token_table (db w))) w).

(** [with Session.begin() as session: res = body(session)]: the changes of
    [body] are committed when it returns and rolled back when it raises;
    the exception propagates. *)
Definition Session_begin {A} (body : M A) : M A := λ w,
  match body w with
  | (Returned a, w') => (Returned a, w')
  | (Raised e, w') => (Raised e, {| db := db w; ticks := ticks w'; draws := draws w' |})
  end.

(** [jsonify(d)]: a response whose body is the object [d]. *)
Definition jsonify (d : list (string * Json)) : Response.t :=
  Response.mk d {[ "Content-Type" := "application/json" ]}.

(** [response.headers[k] = v]. *)
Definition set_header (k v : string) (r : Response.t) : Response.t :=
  Response.mk (Response.json r) (<[k := v]> (Response.headers r)).

(** ** Collaborators *)

(** The functions the handlers import from the rest of the backend, taken
    as parameters: the readings of the clock ([common.getnow]), the random
    token strings, [werkzeug]'s [check_password_hash], the access-token
    codec ([utils.token.AccessToken]) and the lifetime of a refresh
    token. *)
Record Collaborators := mkCollaborators {
  clock : nat → Z;
  random_token : nat → string;
  check_password_hash : string → string → bool;
  sign : dbm.User → Z → string;
  get_expiry : string → Z;
  refresh_ttl : Z }.

Section Handlers.
Variable env : Collaborators.

(** [common.getnow()]: the next reading of the clock. *)
Definition getnow : M Z := λ w,
  (Returned (clock env (ticks w)),
   {| db := db w; ticks := S (ticks w); draws := draws w |}).

Definition uuid4 : M string := λ w,
  (Returned (random_token env (draws w)),
   {| db := db w; ticks := ticks w; draws := S (draws w) |}).

(** Modelled from the spec: [AccessToken.encode_db] is not part of the
    handlers' file.  The codec's [mint] embeds the user's id and an expiry
    a fixed duration from now and signs the payload; the signing is the
    parameter [sign], applied to the user and the instant of minting. *)
Definition AccessToken_encode_db (user : dbm.User) : M string :=
  now ← getnow;
  mret (sign env user now).

(** Modelled from the spec: [OAuth2.generate_refresh_token] is not part of
    the handlers' file.  The store's [issue] generates a random opaque
    string, computes an expire time a fixed TTL from now, persists the row
    and returns the string; uniqueness of the token is enforced by the
    store, so a row whose token is already stored is rejected. *)
Definition OAuth2_generate_refresh_token (user_id : Z) : M string :=
  token ← uuid4;
  now ← getnow;
  session_add (dbm.mkRefreshtoken token user_id (now + refresh_ttl env));;
  mret token.

(** *** Password login *)

(** Lines 37-67 of the file: everything [_credentials_inner] does once
    [username] and [password] have been read from the request. *)
Definition credentials_checked (username password : option string) : M Response.t :=
  match username, password with
  | Some username, Some password =>
      rows ← select_where user_table (λ u, dbm.username u = username);
      orm_user ← scalar_one_or_none rows;
      match orm_user with
      | None => raise (Unauthorized "this user does not exist")
      | Some orm_user =>
          if negb (check_password_hash env (dbm.password_hash orm_user) password)
          then raise (Unauthorized "password does not match")
          else
            access_token ← AccessToken_encode_db orm_user;
            let access_expires := get_expiry env access_token in
            refresh_token ← OAuth2_generate_refresh_token (dbm.id orm_user);
            let response_json :=
              [ ("access_token", JString access_token);
                ("token_type", JString "bearer");
                ("expires_in", JInt access_expires);
                ("refresh_token", JString refresh_token) ] in
            mret (set_header "Pragma" "no-cache"
                   (set_header "Cache-Control" "no-store"
                     (jsonify response_json)))
      end
  | _, _ => raise (BadRequest "missing username or password")
  end.

Definition _credentials_inner (req : request.t) : M Response.t :=
  match request.content_type req with
  | None => raise TypeError
  | Some content_type =>
      if str_in "application/x-www-form-urlencoded" content_type
      then credentials_checked (request.form req !! "username")
                               (request.form req !! "password")
      else credentials_checked (request.headers req !! "username")
                               (request.headers req !! "password")
  end.

Definition credentials (req : request.t) : M Response.t :=
  Session_begin (_credentials_inner req).

(** *** Refresh rotation *)

Definition _refresh_token_inner (req : request.t) : M Response.t :=
  match request.headers req !! "refresh-token" with
  | None => raise (BadRequest "missing refresh-token")
  | Some old_token =>
      rows ← select_where refresh_token_table (λ r, dbm.token r = old_token);
      old_token_document ← scalar_one_or_none rows;
      match old_token_document with
      | None => raise (Unauthorized "refresh-token invalid")
      | Some old_token_document =>
          let expire_time := dbm.expire_time old_token_document in
          now ← getnow;
          if bool_decide (expire_time < now)
          then raise (Unauthorized "token expired")
          else
            users ← select_where user_table
                      (λ u, dbm.id u = dbm.user_id old_token_document);
            orm_user ← scalar_one_or_none users;
            match orm_user with
            | None => raise (Unauthorized "user not found")
            | Some orm_user =>
                access_token ← AccessToken_encode_db orm_user;
                refresh_token ← OAuth2_generate_refresh_token (dbm.id orm_user);
                session_delete old_token_document;;
                now ← getnow;
                delete_expired now;;
                let response_json :=
                  [ ("access_token", JString access_token);
                    ("token_type", JString "bearer");
                    ("expires_in", JInt (get_expiry env access_token));
                    ("refresh_token", JString refresh_token) ] in
                mret (set_header "Pragma" "no-cache"
                       (set_header "Cache-Control" "no-store"
                         (jsonify response_json)))
            end
      end
  end.

Definition refresh_token (req : request.t) : M Response.t :=
  Session_begin (_refresh_token_inner req).

End Handlers.

(** ** Vocabulary of the statements *)

(** The token strings held in storage. *)
Definition stored_tokens (w : World) : list string :=
  dbm.token <$> refresh_token_table (db w).

(** The refresh token a request presents. *)
Definition presented (req : request.t) : option string :=
  request.headers req !! "refresh-token".

(** The instant an execution last read from the clock. *)
Definition last_reading (env : Collaborators) (w : World) : Z :=
  clock env (pred (ticks w)).

(** The clock never runs backwards. *)
Definition monotone (env : Collaborators) : Prop :=
  ∀ m n : nat, (m ≤ n)%nat → clock env m ≤ clock env n.

(** The token exchange envelope with its two cache headers. *)
Definition envelope (access_token : string) (expires_in : Z) (refresh_token : string)
    : Response.t :=
  {| Response.json :=
       [ ("access_token", JString access_token);
         ("token_type", JString "bearer");
         ("expires_in", JInt expires_in);
         ("refresh_token", JString refresh_token) ];
     Response.headers :=
       <["Pragma" := "no-cache"]>
         (<["Cache-Control" := "no-store"]> {[ "Content-Type" := "application/json" ]}) |}.

(** The refresh-token table after a rotation that started in [w]: the
    replacement row is appended, the presented row [old] is removed, and
    the rows expired at the fourth clock reading are purged. *)
Definition rotated_table (env : Collaborators) (w : World) (old : dbm.Refreshtoken)
    (user : dbm.User) : list dbm.Refreshtoken :=
  filter (λ r, ¬ (dbm.expire_time r < clock env (3 + ticks w)))
    (filter (λ r, dbm.token r ≠ dbm.token old)
       ((refresh_token_table (db w) ++
         [dbm.mkRefreshtoken (random_token env (draws w)) (dbm.id user)
            (clock env (2 + ticks w) + refresh_ttl env)])%list)).

(** The exits of [_refresh_token_inner]: each way a run can end, with the
    outcome and the world it ends in. *)
Inductive refresh_exit (env : Collaborators) (req : request.t) (w : World)
    : Outcome Response.t → World → Prop :=
  | exit_missing :
      presented req = None →
      refresh_exit env req w (Raised (BadRequest "missing refresh-token")) w
  | exit_invalid T :
      presented req = Some T →
      filter (λ r, dbm.token r = T) (refresh_token_table (db w)) = [] →
      refresh_exit env req w (Raised (Unauthorized "refresh-token invalid")) w
  | exit_ambiguous e w' :
      db w' = db w →
      e = MultipleResultsFound ∨ e = IntegrityError →
      refresh_exit env req w (Raised e) w'
  | exit_expired T old :
      presented req = Some T →
      filter (λ r, dbm.token r = T) (refresh_token_table (db w)) = [old] →
      dbm.expire_time old < clock env (ticks w) →
      refresh_exit env req w (Raised (Unauthorized "token expired"))
        {| db := db w; ticks := S (ticks w); draws := draws w |}
  | exit_orphan T old :
      presented req = Some T →
      filter (λ r, dbm.token r = T) (refresh_token_table (db w)) = [old] →
      ¬ (dbm.expire_time old < clock env (ticks w)) →
      filter (λ u, dbm.id u = dbm.user_id old) (user_table (db w)) = [] →
      refresh_exit env req w (Raised (Unauthorized "user not found"))
        {| db := db w; ticks := S (ticks w); draws := draws w |}
  | exit_rotated T old user :
      presented req = Some T →
      filter (λ r, dbm.token r = T) (refresh_token_table (db w)) = [old] →
      ¬ (dbm.expire_time old < clock env (ticks w)) →
      filter (λ u, dbm.id u = dbm.user_id old) (user_table (db w)) = [user] →
      random_token env (draws w) ∉ stored_tokens w →
      refresh_exit env req w
        (Returned (envelope (sign env user (clock env (1 + ticks w)))
                     (get_expiry env (sign env user (clock env (1 + ticks w))))
                     (random_token env (draws w))))
        {| db := {| user_table := user_table (db w);
                    refresh_token_table := rotated_table env w old user |};
           ticks := 4 + ticks w;
           draws := S (draws w) |}.

(** The value of [field] a login request supplies: the form field when the
    content type announces a form body, the header otherwise. *)
Definition supplied (field : string) (req : request.t) : option string :=
  match request.content_type req with
  | None => None
  | Some content_type =>
      if str_in "application/x-www-form-urlencoded" content_type
      then request.form req !! field
      else request.headers req !! field
  end.

(** The refusals of the login, in the words of its interface: which
    exception answers which defect of the supplied credentials. *)
Inductive login_refusal (env : Collaborators) (users : list dbm.User)
    : option string → option string → Exception → Prop :=
  | refuse_missing username password :
      username = None ∨ password = None →
      login_refusal env users username password
        (BadRequest "missing username or password")
  | refuse_unknown username password :
      username ∉ dbm.username <$> users →
      login_refusal env users (Some username) (Some password)
        (Unauthorized "this user does not exist")
  | refuse_mismatch user password :
      user ∈ users →
      check_password_hash env (dbm.password_hash user) password = false →
      login_refusal env users (Some (dbm.username user)) (Some password)
        (Unauthorized "password does not match").

(** ** Interrupted and racing executions *)

(** A statement boundary of the exchange at which the persistence layer
    fails or the request is timed out: the execution is cut just before
    the statement numbered [cut] and [fault] is raised there.  With
    [cut = None] the execution is left alone. *)
Definition checkpoint (cut : option nat) (fault : Exception) (i : nat) : M () :=
  if decide (cut = Some i) then raise fault else mret ().

(** [_refresh_token_inner] with its statement boundaries marked: 0 before
    the lookup of the token (line 88), 1 before the lookup of the user
    (line 100), 2 before the access token is encoded (line 107), 3 before
    the replacement is generated (line 108), 4 before the old row is
    deleted (line 111), 5 before the purge (line 112) and 6 before the
    response is built (line 117).  The statements are those of the
    handler, in its order. *)
Definition _refresh_token_inner_interrupted (env : Collaborators)
    (cut : option nat) (fault : Exception) (req : request.t) : M Response.t :=
  match request.headers req !! "refresh-token" with
  | None => raise (BadRequest "missing refresh-token")
  | Some old_token =>
      checkpoint cut fault 0;;
      rows ← select_where refresh_token_table (λ r, dbm.token r = old_token);
      old_token_document ← scalar_one_or_none rows;
      match old_token_document with
      | None => raise (Unauthorized "refresh-token invalid")
      | Some old_token_document =>
          let expire_time := dbm.expire_time old_token_document in
          now ← getnow env;
          if bool_decide (expire_time < now)
          then raise (Unauthorized "token expired")
          else
            checkpoint cut fault 1;;
            users ← select_where user_table
                      (λ u, dbm.id u = dbm.user_id old_token_document);
            orm_user ← scalar_one_or_none users;
            match orm_user with
            | None => raise (Unauthorized "user not found")
            | Some orm_user =>
                checkpoint cut fault 2;;
                access_token ← AccessToken_encode_db env orm_user;
                checkpoint cut fault 3;;
                refresh_token ← OAuth2_generate_refresh_token env (dbm.id orm_user);
                checkpoint cut fault 4;;
                session_delete old_token_document;;
                checkpoint cut fault 5;;
                now ← getnow env;
                delete_expired now;;
                checkpoint cut fault 6;;
                let response_json :=
                  [ ("access_token", JString access_token);
                    ("token_type", JString "bearer");
                    ("expires_in", JInt (get_expiry env access_token));
                    ("refresh_token", JString refresh_token) ] in
                mret (set_header "Pragma" "no-cache"
                       (set_header "Cache-Control" "no-store"
                         (jsonify response_json)))
            end
      end
  end.

Definition refresh_token_interrupted (env : Collaborators)
    (cut : option nat) (fault : Exception) (req : request.t) : M Response.t :=
  Session_begin (_refresh_token_inner_interrupted env cut fault req).

(** The world a transaction reads when it began before another one
    committed: the tables are those of [before], the clock and the token
    generator are where the other transaction left them. *)
Definition snapshot (before now : World) : World :=
  {| db := db before; ticks := ticks now; draws := draws now |}.

(** Two exchanges in a race: the handler takes no row lock and deletes
    unconditionally, so the second one reads the tables as they were
    before the first one committed.  The outcomes of the two calls. *)
Definition racing (env : Collaborators) (req1 req2 : request.t) (w : World)
    : Outcome Response.t * Outcome Response.t :=
  let first := refresh_token env req1 w in
  let second := refresh_token env req2 (snapshot w first.2) in
  (first.1, second.1).

(** Where the login takes username and password from, by the Content-Type
    of the request: from nowhere without one, from the form when it
    contains the form media type, from the headers otherwise. *)
Inductive field_source (form headers : gmap string string)
    : option string → option (gmap string string) → Prop :=
  | source_none :
      field_source form headers None None
  | source_form pre post :
      field_source form headers
        (Some (pre +:+ "application/x-www-form-urlencoded" +:+ post)) (Some form)
  | source_headers content_type :
      (∀ pre post, content_type ≠ pre +:+ "application/x-www-form-urlencoded" +:+ post) →
      field_source form headers (Some content_type) (Some headers).

(** ** A small deployment

    One user, alice (id 7), and three stored refresh tokens: "R1" that
    expires at 5000, "E" that expires at 1000 and "Old" that expired at 10.
    The clock reads 1000, 1001, ...; a refresh token lives 30 days. *)

Fixpoint tally (n : nat) : string :=
  match n with
  | O => EmptyString
  | S n => "I" +:+ tally n
  end.

Definition demo_env : Collaborators :=
  {| clock := λ n, 1000 + Z.of_nat n;
     random_token := λ n, "N-" +:+ tally n;
     check_password_hash := λ hash password, bool_decide (hash = "hash:" +:+ password);
     sign := λ user now, "jwt." +:+ dbm.username user;
     get_expiry := λ _, 3600;
     refresh_ttl := 2592000 |}.

Definition alice : dbm.User := dbm.mkUser 7 "alice" "hash:secret123".

Definition demo_world : World :=
  {| db := {| user_table := [alice];
              refresh_token_table :=
                [ dbm.mkRefreshtoken "R1" 7 5000;
                  dbm.mkRefreshtoken "E" 7 1000;
                  dbm.mkRefreshtoken "Old" 7 10 ] |};
     ticks := 0;
     draws := 0 |}.

(** A refresh request presenting [T] in the "refresh-token" header. *)
Definition refresh_request (T : string) : request.t :=
  request.mk None ∅ {[ "refresh-token" := T ]}.

(** A login request supplying its credentials in the headers. *)
Definition login_request (username password : string) : request.t :=
  request.mk (Some "application/json") ∅
    {[ "username" := username; "password" := password ]}.

(** ** Vocabulary of the further properties *)

(** The row a login or a rotation stores for [user] when its token is drawn
    in [w] and its expire time is computed at the clock reading [k] places
    after the first one of the run. *)
Definition issued_row (env : Collaborators) (w : World) (k : nat) (user : dbm.User)
    : dbm.Refreshtoken :=
  dbm.mkRefreshtoken (random_token env (draws w)) (dbm.id user)
    (clock env (k + ticks w) + refresh_ttl env).

(** The exits of [_credentials_inner]: each way a run can end, with the
    outcome and the world it ends in. *)
Inductive credentials_exit (env : Collaborators) (req : request.t) (w : World)
    : Outcome Response.t → World → Prop :=
  | login_untyped :
      request.content_type req = None →
      credentials_exit env req w (Raised TypeError) w
  | login_incomplete :
      is_Some (request.content_type req) →
      supplied "username" req = None ∨ supplied "password" req = None →
      credentials_exit env req w (Raised (BadRequest "missing username or password")) w
  | login_unknown username password :
      supplied "username" req = Some username →
      supplied "password" req = Some password →
      filter (λ u, dbm.username u = username) (user_table (db w)) = [] →
      credentials_exit env req w (Raised (Unauthorized "this user does not exist")) w
  | login_ambiguous username password user user' users :
      supplied "username" req = Some username →
      supplied "password" req = Some password →
      filter (λ u, dbm.username u = username) (user_table (db w))
        = user :: user' :: users →
      credentials_exit env req w (Raised MultipleResultsFound) w
  | login_mismatch username password user :
      supplied "username" req = Some username →
      supplied "password" req = Some password →
      filter (λ u, dbm.username u = username) (user_table (db w)) = [user] →
      check_password_hash env (dbm.password_hash user) password = false →
      credentials_exit env req w (Raised (Unauthorized "password does not match")) w
  | login_collision username password user :
      supplied "username" req = Some username →
      supplied "password" req = Some password →
      filter (λ u, dbm.username u = username) (user_table (db w)) = [user] →
      check_password_hash env (dbm.password_hash user) password = true →
      random_token env (draws w) ∈ stored_tokens w →
      credentials_exit env req w (Raised IntegrityError)
        {| db := db w; ticks := 2 + ticks w; draws := S (draws w) |}
  | login_granted username password user :
      supplied "username" req = Some username →
      supplied "password" req = Some password →
      filter (λ u, dbm.username u = username) (user_table (db w)) = [user] →
      check_password_hash env (dbm.password_hash user) password = true →
      random_token env (draws w) ∉ stored_tokens w →
      credentials_exit env req w
        (Returned (envelope (sign env user (clock env (ticks w)))
                     (get_expiry env (sign env user (clock env (ticks w))))
                     (random_token env (draws w))))
        {| db := {| user_table := user_table (db w);
                    refresh_token_table :=
                      (refresh_token_table (db w) ++ [issued_row env w 1 user])%list |};
           ticks := 2 + ticks w;
           draws := S (draws w) |}.

(** Every stored refresh token belongs to a stored user. *)
Definition owners_exist (d : Db) : Prop :=
  ∀ r, r ∈ refresh_token_table d → dbm.user_id r ∈ dbm.id <$> user_table d.

(** One request served by the two handlers, whatever it is and however it
    ends; the worlds a deployment goes through are the chains of such
    steps. *)
Inductive served (env : Collaborators) : World → World → Prop :=
  | served_login req w : served env w (credentials env req w).2
  | served_refresh req w : served env w (refresh_token env req w).2.

(** A login request supplying its credentials in a form body. *)
Definition form_login_request (username password : string) : request.t :=
  request.mk (Some "application/x-www-form-urlencoded; charset=UTF-8")
    {[ "username" := username; "password" := password ]} ∅.

(** The small deployment with one more refresh token, "Lost", whose owner
    (id 9) is not a stored user. *)
Definition orphan_world : World :=
  {| db := {| user_table := [alice];
              refresh_token_table :=
                [ dbm.mkRefreshtoken "R1" 7 5000;
                  dbm.mkRefreshtoken "Lost" 9 5000 ] |};
     ticks := 0;
     draws := 0 |}.

(** The small deployment after "R1" has been exchanged, and after alice
    has then logged in again. *)
Definition rotated_world : World :=
  (refresh_token demo_env (refresh_request "R1") demo_world).2.

Definition later_world : World :=
  (credentials demo_env (login_request "alice" "secret123") rotated_world).2.

(** * Proofs *)

(** ** Lookups by key *)

Section Keys.
Context {A K : Type} `{EqDecision K} (key : A → K).

Lemma filter_key_absent (k : K) (l : list A) :
  k ∉ key <$> l → filter (λ x, key x = k) l = [].
Proof.
  induction l as [|a l IH]; intros Hk; [done|].
  rewrite fmap_cons, not_elem_of_cons in Hk. destruct Hk as [Hne Hk].
  rewrite filter_cons_False by congruence. by apply IH.
Qed.

Lemma filter_key_unique (x : A) (l : list A) :
  NoDup (key <$> l) → x ∈ l → filter (λ y, key y = key x) l = [x].
Proof.
  induction l as [|a l IH]; intros Hnd Hx; [by apply elem_of_nil in Hx|].
  rewrite fmap_cons, NoDup_cons in Hnd. destruct Hnd as [Ha Hnd].
  apply elem_of_cons in Hx as [->|Hx].
  - rewrite filter_cons_True by done. f_equal. by apply filter_key_absent.
  - assert (key a ≠ key x) as Hne.
    { intros Heq. apply Ha. rewrite Heq. by apply list_elem_of_fmap_2. }
    rewrite filter_cons_False by done. by apply IH.
Qed.

Lemma filter_key_found (k : K) (x : A) (l : list A) :
  filter (λ y, key y = k) l = [x] → x ∈ l ∧ key x = k.
Proof.
  intros Hf. assert (x ∈ filter (λ y, key y = k) l) as Hx by (rewrite Hf; apply list_elem_of_here).
  apply list_elem_of_filter in Hx. tauto.
Qed.

Lemma filter_key_removed (k : K) (l : list A) :
  k ∉ key <$> filter (λ y, key y ≠ k) l.
Proof.
  intros Hin. apply list_elem_of_fmap in Hin as (y & -> & Hy).
  apply list_elem_of_filter in Hy. tauto.
Qed.

Lemma NoDup_key_filter (P : A → Prop) `{∀ x, Decision (P x)} (l : list A) :
  NoDup (key <$> l) → NoDup (key <$> filter P l).
Proof.
  induction l as [|a l IH]; [done|].
  rewrite fmap_cons, NoDup_cons. intros [Ha Hl].
  rewrite filter_cons. destruct (decide (P a)); [|by apply IH].
  rewrite fmap_cons, NoDup_cons. split; [|by apply IH].
  intros Hin. apply Ha. apply list_elem_of_fmap in Hin as (y & -> & Hy).
  apply list_elem_of_filter in Hy as [_ Hy]. by apply list_elem_of_fmap_2.
Qed.

End Keys.

(** ** Running the handlers *)

Example str_in_form_media_type :
  str_in "application/x-www-form-urlencoded"
    "application/x-www-form-urlencoded; charset=UTF-8" = true.
Proof. reflexivity. Qed.

Example str_in_json_media_type :
  str_in "application/x-www-form-urlencoded" "application/json" = false.
Proof. reflexivity. Qed.

Example str_in_inner_occurrence : str_in "bc" "abcd" = true.
Proof. reflexivity. Qed.

Example str_in_empty : str_in "" "" = true.
Proof. reflexivity. Qed.

(** alice logs in with her password and gets the envelope; the new refresh
    token is stored for her, valid for thirty days from the second reading
    of the clock. *)
Example alice_logs_in :
  credentials demo_env (login_request "alice" "secret123") demo_world =
    (Returned (envelope "jwt.alice" 3600 "N-"),
     {| db := {| user_table := [alice];
                 refresh_token_table :=
                   [ dbm.mkRefreshtoken "R1" 7 5000;
                     dbm.mkRefreshtoken "E" 7 1000;
                     dbm.mkRefreshtoken "Old" 7 10;
                     dbm.mkRefreshtoken "N-" 7 2593001 ] |};
        ticks := 2;
        draws := 1 |}).
Proof. vm_compute. reflexivity. Qed.

(** "R1" is exchanged: its row goes, the replacement comes, and the two
    rows expired at the fourth reading (1003) are purged. *)
Example R1_is_rotated :
  refresh_token demo_env (refresh_request "R1") demo_world =
    (Returned (envelope "jwt.alice" 3600 "N-"),
     {| db := {| user_table := [alice];
                 refresh_token_table := [ dbm.mkRefreshtoken "N-" 7 2593002 ] |};
        ticks := 4;
        draws := 1 |}).
Proof. vm_compute. reflexivity. Qed.

(** Unfolds one handler down to its effect on the world. *)
Ltac unfold_handler :=
  unfold refresh_token, credentials, Session_begin, _refresh_token_inner,
    _credentials_inner, credentials_checked, OAuth2_generate_refresh_token,
    AccessToken_encode_db, select_where, scalar_one_or_none, session_add,
    session_delete, delete_expired, getnow, uuid4, raise, set_refresh_tokens,
    set_header, jsonify, presented, stored_tokens,
    mbind, M_bind, mret, M_ret in *;
  simpl in *.

Section Runs.
Variable env : Collaborators.

(** A rotation that goes through, step by step. *)
Lemma refresh_inner_returns (req : request.t) (w : World) T old user :
  presented req = Some T →
  filter (λ r, dbm.token r = T) (refresh_token_table (db w)) = [old] →
  ¬ (dbm.expire_time old < clock env (ticks w)) →
  filter (λ u, dbm.id u = dbm.user_id old) (user_table (db w)) = [user] →
  random_token env (draws w) ∉ stored_tokens w →
  _refresh_token_inner env req w =
    (Returned (envelope (sign env user (clock env (1 + ticks w)))
                 (get_expiry env (sign env user (clock env (1 + ticks w))))
                 (random_token env (draws w))),
     {| db := {| user_table := user_table (db w);
                 refresh_token_table := rotated_table env w old user |};
        ticks := 4 + ticks w;
        draws := S (draws w) |}).
Proof.
  intros HT Hold Hlive Huser Hfresh. unfold_handler.
  rewrite HT, Hold; simpl. rewrite bool_decide_eq_false_2 by done; simpl.
  rewrite Huser; simpl. rewrite decide_False by done. reflexivity.
Qed.

Lemma refresh_inner_exits (req : request.t) (w : World) :
  refresh_exit env req w (_refresh_token_inner env req w).1 (_refresh_token_inner env req w).2.
Proof.
  destruct (presented req) as [T|] eqn:HT.
  2:{ unfold_handler. rewrite HT. by apply exit_missing. }
  pose proof HT as HT'. unfold presented in HT'.
  destruct (filter (λ r, dbm.token r = T) (refresh_token_table (db w)))
    as [|old [|? ?]] eqn:Hold.
  - unfold_handler. rewrite HT', Hold. by eapply exit_invalid.
  - destruct (decide (dbm.expire_time old < clock env (ticks w))) as [Hexp|Hlive].
    { unfold_handler. rewrite HT', Hold; simpl.
      rewrite bool_decide_eq_true_2 by done. by eapply exit_expired. }
    destruct (filter (λ u, dbm.id u = dbm.user_id old) (user_table (db w)))
      as [|user [|? ?]] eqn:Huser.
    + unfold_handler. rewrite HT', Hold; simpl.
      rewrite bool_decide_eq_false_2 by done; simpl. rewrite Huser.
      by eapply exit_orphan.
    + destruct (decide (random_token env (draws w) ∈ stored_tokens w)) as [Hdup|Hfresh].
      * unfold_handler. rewrite HT', Hold; simpl.
        rewrite bool_decide_eq_false_2 by done; simpl. rewrite Huser; simpl.
        rewrite decide_True by done. apply exit_ambiguous; auto.
      * rewrite (refresh_inner_returns req w T old user) by done.
        by eapply exit_rotated.
    + unfold_handler. rewrite HT', Hold; simpl.
      rewrite bool_decide_eq_false_2 by done; simpl. rewrite Huser.
      apply exit_ambiguous; auto.
  - unfold_handler. rewrite HT', Hold. apply exit_ambiguous; auto.
Qed.

End Runs.

Section Transactions.
Context {A : Type} (body : M A).

Lemma Session_begin_commits w a w' :
  body w = (Returned a, w') → Session_begin body w = (Returned a, w').
Proof. intros Hb. unfold Session_begin. by rewrite Hb. Qed.

Lemma Session_begin_rolls_back w e w' :
  body w = (Raised e, w') →
  Session_begin body w = (Raised e, {| db := db w; ticks := ticks w'; draws := draws w' |}).
Proof. intros Hb. unfold Session_begin. by rewrite Hb. Qed.

Lemma Session_begin_returned_inv w a w' :
  Session_begin body w = (Returned a, w') → body w = (Returned a, w').
Proof.
  unfold Session_begin. destruct (body w) as [[a0|e0] w0]; intros Heq; by simplify_eq.
Qed.

Lemma Session_begin_raised_inv w e w' :
  Session_begin body w = (Raised e, w') →
  db w' = db w ∧ ∃ w0, body w = (Raised e, w0) ∧ ticks w' = ticks w0.
Proof.
  unfold Session_begin. destruct (body w) as [[a0|e0] w0]; intros Heq; simplify_eq.
  split; [done|]. by exists w0.
Qed.

Lemma Session_begin_outcome w : (Session_begin body w).1 = (body w).1.
Proof. unfold Session_begin. by destruct (body w) as [[a|e] w']. Qed.

End Transactions.

Section RefreshFacts.
Variable env : Collaborators.

Lemma refresh_inner_exit_of req w out w' :
  _refresh_token_inner env req w = (out, w') → refresh_exit env req w out w'.
Proof.
  intros Hrun. pose proof (refresh_inner_exits env req w) as Hex.
  by rewrite Hrun in Hex.
Qed.

(** A token that is not stored is turned away, and nothing changes. *)
Lemma refresh_inner_absent req w T :
  presented req = Some T →
  T ∉ stored_tokens w →
  _refresh_token_inner env req w = (Raised (Unauthorized "refresh-token invalid"), w).
Proof.
  intros HT Habs. unfold_handler. rewrite HT.
  by rewrite (filter_key_absent dbm.token T).
Qed.

(** A stored token whose expire time is before the reading of the clock is
    turned away; only the clock has moved. *)
Lemma refresh_inner_expired req w T old :
  presented req = Some T →
  filter (λ r, dbm.token r = T) (refresh_token_table (db w)) = [old] →
  dbm.expire_time old < clock env (ticks w) →
  _refresh_token_inner env req w =
    (Raised (Unauthorized "token expired"),
     {| db := db w; ticks := S (ticks w); draws := draws w |}).
Proof.
  intros HT Hold Hexp. unfold_handler. rewrite HT, Hold; simpl.
  by rewrite bool_decide_eq_true_2.
Qed.

(** Whatever the handler raises, it raises before touching the tables. *)
Lemma refresh_inner_raise_keeps_db req w e w' :
  _refresh_token_inner env req w = (Raised e, w') → db w' = db w.
Proof.
  intros Hrun. apply refresh_inner_exit_of in Hrun.
  inversion Hrun; subst; done.
Qed.

Lemma rotated_table_drops_old w old user :
  dbm.token old ∉ dbm.token <$> rotated_table env w old user.
Proof.
  unfold rotated_table. intros Hin.
  apply list_elem_of_fmap in Hin as (r & Heq & Hr).
  apply list_elem_of_filter in Hr as [_ Hr].
  apply list_elem_of_filter in Hr as [Hne _]. congruence.
Qed.

Lemma rotated_table_purged w old user r :
  r ∈ rotated_table env w old user →
  ¬ (dbm.expire_time r < clock env (3 + ticks w)).
Proof.
  unfold rotated_table. intros Hr. by apply list_elem_of_filter in Hr as [? _].
Qed.

(** The unique-token invariant of the table survives every run. *)
Lemma refresh_inner_keeps_tokens_unique req w out w' :
  NoDup (stored_tokens w) →
  _refresh_token_inner env req w = (out, w') →
  NoDup (stored_tokens w').
Proof.
  intros Hnd Hrun. apply refresh_inner_exit_of in Hrun.
  inversion Hrun as [| | ? ? Hdb | | |? old user _ _ _ _ Hfresh]; subst; try done.
  - unfold stored_tokens. by rewrite Hdb.
  - unfold stored_tokens, rotated_table in *; simpl.
    do 2 apply NoDup_key_filter. rewrite fmap_app. apply NoDup_app.
    split; [done|]. split; [|apply NoDup_singleton].
    intros x Hx Hx'. apply list_elem_of_singleton in Hx'. by subst.
Qed.

(** A run of the exchange, inside or around its transaction, either raises
    with the database as it was, or is a run of the handler that returns. *)
Lemma refresh_outcomes req w out w' :
  _refresh_token_inner env req w = (out, w') ∨ refresh_token env req w = (out, w') →
  (∃ e, out = Raised e ∧ db w' = db w) ∨
  (∃ resp, out = Returned resp ∧ _refresh_token_inner env req w = (Returned resp, w')).
Proof.
  intros [Hrun|Hrun]; destruct out as [resp|e].
  - right. by exists resp.
  - left. exists e. split; [done|]. by apply refresh_inner_raise_keeps_db in Hrun.
  - right. exists resp. split; [done|]. by apply Session_begin_returned_inv in Hrun.
  - left. exists e. split; [done|]. by apply Session_begin_raised_inv in Hrun as [? _].
Qed.

End RefreshFacts.

(** ** Claims about the refresh rotation *)

Section RefreshClaims.
Variable env : Collaborators.

(** C1. A refresh token [T] that is stored, not expired and owned by an
    existing user is exchanged.  The exchange returns as soon as the
    generator's draw is not a stored token (a colliding draw is refused by
    the store).  Every exchange that returns answers with the envelope of
    a new refresh token [T'] that differs from [T], because its row was
    accepted by the store while the row of [T] was still there; the table
    afterwards is the rotated one, in which [T'] is stored for the owner
    of [T] unless the purge already finds it expired; [T] is no longer
    stored, and a second exchange presenting [T] right after fails with
    Unauthorized("refresh-token invalid"). *)
Theorem refresh_rotates_and_is_single_use (req : request.t) (w : World) T old user :
  NoDup (stored_tokens w) →
  NoDup (dbm.id <$> user_table (db w)) →
  presented req = Some T →
  old ∈ refresh_token_table (db w) →
  dbm.token old = T →
  ¬ (dbm.expire_time old < clock env (ticks w)) →
  user ∈ user_table (db w) →
  dbm.id user = dbm.user_id old →
  (random_token env (draws w) ∉ stored_tokens w →
   ∃ resp w', refresh_token env req w = (Returned resp, w')) ∧
  (∀ resp w',
     refresh_token env req w = (Returned resp, w') →
     ∃ access_token expires_in T',
       resp = envelope access_token expires_in T' ∧
       T' ≠ T ∧
       refresh_token_table (db w') = rotated_table env w old user ∧
       (clock env (3 + ticks w) ≤ clock env (2 + ticks w) + refresh_ttl env →
        dbm.mkRefreshtoken T' (dbm.user_id old) (clock env (2 + ticks w) + refresh_ttl env)
          ∈ refresh_token_table (db w')) ∧
       (T ∉ stored_tokens w') ∧
       (∀ req', presented req' = Some T →
          (refresh_token env req' w').1 = Raised (Unauthorized "refresh-token invalid"))).
Proof.
  intros Htok Hids HT Hold Hkey Hlive Huser Hown.
  assert (filter (λ r, dbm.token r = T) (refresh_token_table (db w)) = [old]) as Hrow.
  { subst T. by apply (filter_key_unique dbm.token). }
  assert (filter (λ u, dbm.id u = dbm.user_id old) (user_table (db w)) = [user]) as Husr.
  { rewrite <- Hown. by apply (filter_key_unique dbm.id). }
  split.
  - intros Hfresh. eexists _, _. apply Session_begin_commits.
    by apply (refresh_inner_returns env req w T old user).
  - intros resp w' Hrun. apply Session_begin_returned_inv in Hrun.
    apply refresh_inner_exit_of in Hrun.
    inversion Hrun as [| | | | |T0 old0 user0 HT0 Hrow0 _ Husr0 Haccepted]; subst.
    rewrite HT in HT0. simplify_eq. rewrite Hrow in Hrow0. simplify_eq.
    rewrite Husr in Husr0. simplify_eq.
    assert (random_token env (draws w) ≠ dbm.token old0) as Hnew.
    { intros Heq. apply Haccepted. rewrite Heq.
      by apply (list_elem_of_fmap_2 dbm.token). }
    assert (dbm.token old0 ∉ dbm.token <$> rotated_table env w old0 user0) as Hgone
      by apply rotated_table_drops_old.
    eexists _, _, (random_token env (draws w)).
    split; [reflexivity|]. split; [done|]. simpl. split; [done|]. split; [|split; [done|]].
    + intros Hlife. unfold rotated_table. rewrite <- Hown.
      apply list_elem_of_filter. split; [simpl in *; lia|].
      apply list_elem_of_filter. split; [done|].
      apply elem_of_app. right. by apply list_elem_of_singleton.
    + intros req' HT'. unfold refresh_token. rewrite Session_begin_outcome.
      by rewrite (refresh_inner_absent env req' _ (dbm.token old0)).
Qed.

(** C3, as amended.  A stored refresh token fails the exchange with
    Unauthorized("token expired") when its expire time is strictly before
    the reading of the clock, and only then: a token whose expire time
    equals the reading is not turned away as expired. *)
Theorem refresh_rejects_expired (req : request.t) (w : World) T old :
  NoDup (stored_tokens w) →
  presented req = Some T →
  old ∈ refresh_token_table (db w) →
  dbm.token old = T →
  (refresh_token env req w).1 = Raised (Unauthorized "token expired")
  ↔ dbm.expire_time old < clock env (ticks w).
Proof.
  intros Htok HT Hold Hkey.
  assert (filter (λ r, dbm.token r = T) (refresh_token_table (db w)) = [old]) as Hrow.
  { subst T. by apply (filter_key_unique dbm.token). }
  unfold refresh_token. rewrite Session_begin_outcome. split.
  - intros Hout. destruct (decide (dbm.expire_time old < clock env (ticks w))) as [|Hlive]; [done|].
    exfalso. pose proof (refresh_inner_exits env req w) as Hex. rewrite Hout in Hex.
    inversion Hex as [ | | ? ? ? [?|?] | T0 old0 HT0 Hrow0 Hexp0 | | ]; subst; try done.
    rewrite HT in HT0. simplify_eq. rewrite Hrow in Hrow0. by simplify_eq.
  - intros Hexp. by rewrite (refresh_inner_expired env req w T old).
Qed.

(** C5. A failed exchange - BadRequest for a missing token, Unauthorized
    for an unknown token, an expired token or a missing owner, or any other
    exception - leaves the database as it was: the handler raises before it
    writes, and the transaction rolls back. *)
Theorem failed_refresh_keeps_storage (req : request.t) (w : World) e w' :
  _refresh_token_inner env req w = (Raised e, w') ∨ refresh_token env req w = (Raised e, w') →
  db w' = db w ∧ refresh_token_table (db w') = refresh_token_table (db w).
Proof.
  intros [Hrun|Hrun].
  - apply refresh_inner_raise_keeps_db in Hrun. by rewrite Hrun.
  - apply Session_begin_raised_inv in Hrun as [Hdb _]. by rewrite Hdb.
Qed.

(** C6, as amended.  The purge of expired rows runs on every successful
    exchange: after an exchange that returns, no stored row has an expire
    time before the instant the exchange last read from the clock. *)
Theorem successful_refresh_purges_expired (req : request.t) (w : World) resp w' r :
  refresh_token env req w = (Returned resp, w') →
  r ∈ refresh_token_table (db w') →
  ¬ (dbm.expire_time r < last_reading env w').
Proof.
  intros Hrun Hr. apply Session_begin_returned_inv in Hrun.
  apply refresh_inner_exit_of in Hrun. inversion Hrun; subst.
  unfold last_reading. simpl in *. by eapply rotated_table_purged.
Qed.

(** C9. An exchange that rejects the presented token as expired does not
    delete its row: the table is unchanged and the row is still stored.
    The row goes away with the purge of a later exchange that succeeds. *)
Theorem expired_row_left_for_purge (req : request.t) (w : World) T old :
  monotone env →
  NoDup (stored_tokens w) →
  presented req = Some T →
  old ∈ refresh_token_table (db w) →
  dbm.token old = T →
  dbm.expire_time old < clock env (ticks w) →
  ∃ w',
    refresh_token env req w = (Raised (Unauthorized "token expired"), w') ∧
    refresh_token_table (db w') = refresh_token_table (db w) ∧
    old ∈ refresh_token_table (db w') ∧
    (∀ req2 w2 resp w3,
       (ticks w' ≤ ticks w2)%nat →
       refresh_token env req2 w2 = (Returned resp, w3) →
       old ∉ refresh_token_table (db w3)).
Proof.
  intros Hmono Htok HT Hold Hkey Hexp.
  assert (filter (λ r, dbm.token r = T) (refresh_token_table (db w)) = [old]) as Hrow.
  { subst T. by apply (filter_key_unique dbm.token). }
  pose proof (refresh_inner_expired env req w T old HT Hrow Hexp) as Hrun.
  apply Session_begin_rolls_back in Hrun. simpl in Hrun.
  eexists. split; [exact Hrun|]. simpl. split; [done|]. split; [done|].
  intros req2 w2 resp w3 Hlater Hrun2 Hin.
  apply Session_begin_returned_inv in Hrun2.
  apply refresh_inner_exit_of in Hrun2. inversion Hrun2; subst. simpl in Hin.
  apply rotated_table_purged in Hin. apply Hin.
  eapply Z.lt_le_trans; [exact Hexp|]. apply Hmono. lia.
Qed.

End RefreshClaims.

(** ** Claims about the password login *)

Section CredentialsClaims.
Variable env : Collaborators.

Lemma credentials_checked_refuses w username password e :
  NoDup (dbm.username <$> user_table (db w)) →
  login_refusal env (user_table (db w)) username password e →
  credentials_checked env username password w = (Raised e, w).
Proof.
  intros Hnd Href. destruct Href as [username password Hnone|username password Habs|user password Hin Hbad].
  - unfold credentials_checked. destruct Hnone as [-> | ->]; [done|]. by destruct username.
  - unfold_handler. by rewrite (filter_key_absent dbm.username username).
  - unfold_handler. rewrite (filter_key_unique dbm.username user) by done. simpl.
    by rewrite Hbad.
Qed.

Lemma credentials_checked_returns w username password resp w' :
  credentials_checked env username password w = (Returned resp, w') →
  ∃ access_token expires_in refresh_token',
    resp = envelope access_token expires_in refresh_token'.
Proof.
  unfold_handler. intros Hrun.
  repeat (case_match; simplify_eq; simpl in * ); eauto.
Qed.

Lemma credentials_inner_unfold (req : request.t) w :
  is_Some (request.content_type req) →
  _credentials_inner env req w =
    credentials_checked env (supplied "username" req) (supplied "password" req) w.
Proof.
  intros [ct Hct]. unfold _credentials_inner, supplied. rewrite Hct.
  by destruct (str_in _ ct).
Qed.

(** C7, as amended.  For a request that carries a Content-Type, the login
    fails with BadRequest("missing username or password") when the username
    or the password is not supplied, with Unauthorized("this user does not
    exist") when no stored user has the username, and with
    Unauthorized("password does not match") when the user is stored and the
    password does not verify against the stored hash. *)
Theorem credentials_refusals (req : request.t) (w : World) e :
  is_Some (request.content_type req) →
  NoDup (dbm.username <$> user_table (db w)) →
  login_refusal env (user_table (db w))
    (supplied "username" req) (supplied "password" req) e →
  (credentials env req w).1 = Raised e.
Proof.
  intros Hct Hnd Href. unfold credentials.
  erewrite Session_begin_rolls_back; [reflexivity|].
  rewrite credentials_inner_unfold by done. by apply credentials_checked_refuses.
Qed.

(** C8. Every successful issuance, by the login or by the refresh
    exchange, answers with a body of exactly the four members
    access_token (a string), token_type = "bearer", expires_in (an integer)
    and refresh_token (a string), and with the headers
    Cache-Control: no-store and Pragma: no-cache. *)
Theorem issuance_envelope (req : request.t) (w : World) resp w' :
  credentials env req w = (Returned resp, w') ∨
  refresh_token env req w = (Returned resp, w') →
  (∃ access_token expires_in refresh_token',
     Response.json resp =
       [ ("access_token", JString access_token);
         ("token_type", JString "bearer");
         ("expires_in", JInt expires_in);
         ("refresh_token", JString refresh_token') ]) ∧
  Response.headers resp !! "Cache-Control" = Some "no-store" ∧
  Response.headers resp !! "Pragma" = Some "no-cache".
Proof.
  intros Hrun.
  assert (∃ a x r, resp = envelope a x r) as (a & x & r & ->).
  { destruct Hrun as [Hrun|Hrun]; apply Session_begin_returned_inv in Hrun.
    - unfold _credentials_inner in Hrun.
      destruct (request.content_type req) as [ct|]; [|done].
      destruct (str_in _ ct); by eapply credentials_checked_returns.
    - apply refresh_inner_exit_of in Hrun. inversion Hrun; subst; eauto. }
  split; [by eexists _, _, _|]. split; reflexivity.
Qed.

(** The two branches of lines 31-36 and the failure of the test itself. *)
Lemma credentials_inner_branches (content_type : option string)
    (form headers : gmap string string) (w : World) :
  _credentials_inner env (request.mk content_type form headers) w =
    match content_type with
    | None => (Raised TypeError, w)
    | Some ct =>
        if str_in "application/x-www-form-urlencoded" ct
        then credentials_checked env (form !! "username") (form !! "password") w
        else credentials_checked env (headers !! "username") (headers !! "password") w
    end.
Proof.
  unfold _credentials_inner; simpl. destruct content_type as [ct|]; [|done].
  by destruct (str_in _ ct).
Qed.

End CredentialsClaims.

(** ** The claims on the small deployment *)

(** Decides a closed decidable proposition by evaluation. *)
Ltac evaluate := apply (bool_decide_unpack _); vm_compute; exact I.

Lemma refresh_rotates_and_is_single_use_witness :
  (random_token demo_env (draws demo_world) ∉ stored_tokens demo_world →
   ∃ resp w', refresh_token demo_env (refresh_request "R1") demo_world = (Returned resp, w')) ∧
  (∀ resp w',
     refresh_token demo_env (refresh_request "R1") demo_world = (Returned resp, w') →
     ∃ access_token expires_in T',
       resp = envelope access_token expires_in T' ∧
       T' ≠ "R1" ∧
       refresh_token_table (db w')
         = rotated_table demo_env demo_world (dbm.mkRefreshtoken "R1" 7 5000) alice ∧
       (clock demo_env (3 + ticks demo_world)
          ≤ clock demo_env (2 + ticks demo_world) + refresh_ttl demo_env →
        dbm.mkRefreshtoken T' (dbm.user_id (dbm.mkRefreshtoken "R1" 7 5000))
          (clock demo_env (2 + ticks demo_world) + refresh_ttl demo_env)
          ∈ refresh_token_table (db w')) ∧
       ("R1" ∉ stored_tokens w') ∧
       (∀ req', presented req' = Some "R1" →
          (refresh_token demo_env req' w').1 = Raised (Unauthorized "refresh-token invalid"))).
Proof.
  apply (refresh_rotates_and_is_single_use demo_env (refresh_request "R1") demo_world
           "R1" (dbm.mkRefreshtoken "R1" 7 5000) alice).
  - evaluate.
  - evaluate.
  - reflexivity.
  - evaluate.
  - reflexivity.
  - simpl. lia.
  - evaluate.
  - reflexivity.
Defined.

(** C3, as stated, fails: the token "E" expires at 1000, the clock reads
    1000, and the exchange does not answer Unauthorized("token expired"). *)
Lemma expiry_at_the_reading_is_accepted :
  dbm.mkRefreshtoken "E" 7 1000 ∈ refresh_token_table (db demo_world) ∧
  dbm.expire_time (dbm.mkRefreshtoken "E" 7 1000) ≤ clock demo_env (ticks demo_world) ∧
  (refresh_token demo_env (refresh_request "E") demo_world).1
    ≠ Raised (Unauthorized "token expired").
Proof.
  split; [evaluate|]. split; [simpl; lia|].
  vm_compute. discriminate.
Qed.

Lemma refresh_rejects_expired_witness :
  (refresh_token demo_env (refresh_request "Old") demo_world).1
    = Raised (Unauthorized "token expired")
  ↔ dbm.expire_time (dbm.mkRefreshtoken "Old" 7 10) < clock demo_env (ticks demo_world).
Proof.
  apply (refresh_rejects_expired demo_env (refresh_request "Old") demo_world
           "Old" (dbm.mkRefreshtoken "Old" 7 10)).
  - evaluate.
  - reflexivity.
  - evaluate.
  - reflexivity.
Defined.

Lemma failed_refresh_keeps_storage_witness :
  db (refresh_token demo_env (refresh_request "unknown") demo_world).2 = db demo_world ∧
  refresh_token_table (db (refresh_token demo_env (refresh_request "unknown") demo_world).2)
    = refresh_token_table (db demo_world).
Proof.
  apply (failed_refresh_keeps_storage demo_env (refresh_request "unknown") demo_world
           (Unauthorized "refresh-token invalid")).
  right. vm_compute. reflexivity.
Defined.

(** C6, as stated, fails: the exchange presenting "Old" is rejected, it
    read the clock at 1000, and the row of "Old", expired at 10, is still
    stored after it. *)
Lemma failed_refresh_skips_purge :
  ∃ out w' r,
    refresh_token demo_env (refresh_request "Old") demo_world = (out, w') ∧
    r ∈ refresh_token_table (db w') ∧
    dbm.expire_time r < last_reading demo_env w'.
Proof.
  eexists _, _, (dbm.mkRefreshtoken "Old" 7 10).
  split; [vm_compute; reflexivity|]. split; [evaluate|]. vm_compute. reflexivity.
Qed.

Lemma successful_refresh_purges_expired_witness :
  ¬ (dbm.expire_time (dbm.mkRefreshtoken "R1" 7 5000)
       < last_reading demo_env
           (refresh_token demo_env (refresh_request "E") demo_world).2).
Proof.
  apply (successful_refresh_purges_expired demo_env (refresh_request "E") demo_world
           (envelope "jwt.alice" 3600 "N-")).
  - vm_compute. reflexivity.
  - evaluate.
Defined.

Lemma expired_row_left_for_purge_witness :
  ∃ w',
    refresh_token demo_env (refresh_request "Old") demo_world
      = (Raised (Unauthorized "token expired"), w') ∧
    refresh_token_table (db w') = refresh_token_table (db demo_world) ∧
    dbm.mkRefreshtoken "Old" 7 10 ∈ refresh_token_table (db w') ∧
    (∀ req2 w2 resp w3,
       (ticks w' ≤ ticks w2)%nat →
       refresh_token demo_env req2 w2 = (Returned resp, w3) →
       dbm.mkRefreshtoken "Old" 7 10 ∉ refresh_token_table (db w3)).
Proof.
  apply (expired_row_left_for_purge demo_env (refresh_request "Old") demo_world "Old").
  - intros m n Hmn. simpl. lia.
  - evaluate.
  - reflexivity.
  - evaluate.
  - reflexivity.
  - simpl. lia.
Defined.

(** C7, as stated, fails: for the unknown user "bob" the login answers
    Unauthorized("this user does not exist"), not
    Unauthorized("user does not exist"). *)
Lemma unknown_user_message :
  ("bob" ∉ dbm.username <$> user_table (db demo_world)) ∧
  (credentials demo_env (login_request "bob" "secret123") demo_world).1
    = Raised (Unauthorized "this user does not exist") ∧
  (credentials demo_env (login_request "bob" "secret123") demo_world).1
    ≠ Raised (Unauthorized "user does not exist").
Proof.
  split; [evaluate|]. split; [vm_compute; reflexivity|]. vm_compute. discriminate.
Qed.

Lemma credentials_refusals_witness :
  (credentials demo_env (request.mk (Some "application/json") ∅ {[ "username" := "alice" ]})
     demo_world).1 = Raised (BadRequest "missing username or password") ∧
  (credentials demo_env (login_request "bob" "secret123") demo_world).1
    = Raised (Unauthorized "this user does not exist") ∧
  (credentials demo_env (login_request "alice" "wrong") demo_world).1
    = Raised (Unauthorized "password does not match").
Proof.
  split; [|split].
  - apply (credentials_refusals demo_env
             (request.mk (Some "application/json") ∅ {[ "username" := "alice" ]})
             demo_world).
    + by eexists.
    + evaluate.
    + apply refuse_missing. right. vm_compute. reflexivity.
  - apply (credentials_refusals demo_env (login_request "bob" "secret123") demo_world).
    + by eexists.
    + evaluate.
    + apply (refuse_unknown demo_env _ "bob" "secret123"). evaluate.
  - apply (credentials_refusals demo_env (login_request "alice" "wrong") demo_world).
    + by eexists.
    + evaluate.
    + apply (refuse_mismatch demo_env _ alice "wrong"); [evaluate|].
      vm_compute. reflexivity.
Defined.

Lemma issuance_envelope_witness :
  (∃ access_token expires_in refresh_token',
     Response.json (envelope "jwt.alice" 3600 "N-") =
       [ ("access_token", JString access_token);
         ("token_type", JString "bearer");
         ("expires_in", JInt expires_in);
         ("refresh_token", JString refresh_token') ]) ∧
  Response.headers (envelope "jwt.alice" 3600 "N-") !! "Cache-Control" = Some "no-store" ∧
  Response.headers (envelope "jwt.alice" 3600 "N-") !! "Pragma" = Some "no-cache".
Proof.
  apply (issuance_envelope demo_env (login_request "alice" "secret123") demo_world
           (envelope "jwt.alice" 3600 "N-")
           (credentials demo_env (login_request "alice" "secret123") demo_world).2).
  left. vm_compute. reflexivity.
Defined.

(** ** Further properties of the handlers *)

Section LoginFacts.
Variable env : Collaborators.

Lemma credentials_inner_exits (req : request.t) (w : World) :
  credentials_exit env req w (_credentials_inner env req w).1 (_credentials_inner env req w).2.
Proof.
  destruct (request.content_type req) as [ct|] eqn:Hct.
  2:{ unfold _credentials_inner. rewrite Hct. by apply login_untyped. }
  rewrite credentials_inner_unfold by eauto.
  destruct (supplied "username" req) as [username|] eqn:Hu.
  2:{ apply login_incomplete; eauto. }
  destruct (supplied "password" req) as [password|] eqn:Hp.
  2:{ apply login_incomplete; eauto. }
  destruct (filter (λ u, dbm.username u = username) (user_table (db w)))
    as [|user [|user' users]] eqn:Hrows.
  - unfold_handler. rewrite Hrows. by eapply login_unknown.
  - destruct (check_password_hash env (dbm.password_hash user) password) eqn:Hok.
    + destruct (decide (random_token env (draws w) ∈ stored_tokens w)) as [Hdup|Hfresh].
      * unfold_handler. rewrite Hrows; simpl. rewrite Hok; simpl.
        rewrite decide_True by done. by eapply login_collision.
      * unfold_handler. rewrite Hrows; simpl. rewrite Hok; simpl.
        rewrite decide_False by done. by eapply login_granted.
    + unfold_handler. rewrite Hrows; simpl. rewrite Hok; simpl.
      by eapply login_mismatch.
  - unfold_handler. rewrite Hrows. by eapply login_ambiguous.
Qed.

Lemma credentials_inner_exit_of req w out w' :
  _credentials_inner env req w = (out, w') → credentials_exit env req w out w'.
Proof.
  intros Hrun. pose proof (credentials_inner_exits req w) as Hex.
  by rewrite Hrun in Hex.
Qed.

(** Whatever the login raises, the tables are as they were. *)
Lemma credentials_inner_raise_keeps_db req w e w' :
  _credentials_inner env req w = (Raised e, w') → db w' = db w.
Proof.
  intros Hrun. apply credentials_inner_exit_of in Hrun.
  inversion Hrun; subst; done.
Qed.

(** A run of the login, inside or around its transaction, either raises
    with the database as it was, or is a run of the handler that returns. *)
Lemma credentials_outcomes req w out w' :
  _credentials_inner env req w = (out, w') ∨ credentials env req w = (out, w') →
  (∃ e, out = Raised e ∧ db w' = db w) ∨
  (∃ resp, out = Returned resp ∧ _credentials_inner env req w = (Returned resp, w')).
Proof.
  intros [Hrun|Hrun]; destruct out as [resp|e].
  - right. by exists resp.
  - left. exists e. split; [done|]. by apply credentials_inner_raise_keeps_db in Hrun.
  - right. exists resp. split; [done|]. by apply Session_begin_returned_inv in Hrun.
  - left. exists e. split; [done|]. by apply Session_begin_raised_inv in Hrun as [? _].
Qed.

(** The table after any run of the login: the one before, or the one
    before with the row of the next draw at its end. *)
Lemma credentials_table req w :
  refresh_token_table (db (credentials env req w).2) = refresh_token_table (db w) ∨
  ∃ user,
    user ∈ user_table (db w) ∧
    (random_token env (draws w) ∉ stored_tokens w) ∧
    refresh_token_table (db (credentials env req w).2)
      = (refresh_token_table (db w) ++ [issued_row env w 1 user])%list.
Proof.
  destruct (credentials env req w) as [out w'] eqn:Hrun. simpl.
  destruct (credentials_outcomes req w out w' (or_intror Hrun))
    as [(e & -> & Hdb)|(resp & -> & Hin)].
  { left. by rewrite Hdb. }
  apply credentials_inner_exit_of in Hin.
  inversion Hin as [| | | | | |username password user Hu Hp Hrows Hok Hfresh]; subst.
  right. exists user. split; [|done].
  by apply (filter_key_found dbm.username) in Hrows as [? _].
Qed.

(** The table after any run of the exchange: the one before, or a rotated
    one. *)
Lemma refresh_table req w :
  refresh_token_table (db (refresh_token env req w).2) = refresh_token_table (db w) ∨
  ∃ old user,
    old ∈ refresh_token_table (db w) ∧
    presented req = Some (dbm.token old) ∧
    ¬ (dbm.expire_time old < clock env (ticks w)) ∧
    user ∈ user_table (db w) ∧
    dbm.id user = dbm.user_id old ∧
    (random_token env (draws w) ∉ stored_tokens w) ∧
    filter (λ r, dbm.token r = dbm.token old) (refresh_token_table (db w)) = [old] ∧
    refresh_token_table (db (refresh_token env req w).2) = rotated_table env w old user.
Proof.
  destruct (refresh_token env req w) as [out w'] eqn:Hrun. simpl.
  destruct (refresh_outcomes env req w out w' (or_intror Hrun))
    as [(e & -> & Hdb)|(resp & -> & Hin)].
  { left. by rewrite Hdb. }
  apply refresh_inner_exit_of in Hin.
  inversion Hin as [| | | | |T old user HT Hrow Hlive Husr Hfresh]; subst.
  right. exists old, user.
  pose proof Hrow as Hrow'.
  apply (filter_key_found dbm.token) in Hrow as [Hold Hkey].
  apply (filter_key_found dbm.id) in Husr as [Huser Hid].
  subst T. done.
Qed.

(** Neither handler writes the user table. *)
Lemma served_users w w' : served env w w' → user_table (db w') = user_table (db w).
Proof.
  intros [req w0|req w0].
  - destruct (credentials env req w0) as [out w1] eqn:Hrun. simpl.
    destruct (credentials_outcomes req w0 out w1 (or_intror Hrun))
      as [(e & -> & Hdb)|(resp & -> & Hin)]; [by rewrite Hdb|].
    apply credentials_inner_exit_of in Hin. by inversion Hin; subst.
  - destruct (refresh_token env req w0) as [out w1] eqn:Hrun. simpl.
    destruct (refresh_outcomes env req w0 out w1 (or_intror Hrun))
      as [(e & -> & Hdb)|(resp & -> & Hin)]; [by rewrite Hdb|].
    apply refresh_inner_exit_of in Hin. by inversion Hin; subst.
Qed.

End LoginFacts.

(** *** The password login, beyond its refusals *)

Section LoginProperties.
Variable env : Collaborators.

(** X1. The login answers with an envelope only for a verified password:
    whenever it returns, the request supplied the username of a stored user
    and a password that verifies against that user's hash; the access
    token is signed for that user at the first clock reading, expires_in is
    that token's expiry, and the database is the one before with one more
    row, the returned refresh token issued to that user. *)
Theorem login_requires_verified_password (req : request.t) (w : World) resp w' :
  credentials env req w = (Returned resp, w') →
  ∃ user password,
    supplied "username" req = Some (dbm.username user) ∧
    supplied "password" req = Some password ∧
    user ∈ user_table (db w) ∧
    check_password_hash env (dbm.password_hash user) password = true ∧
    resp = envelope (sign env user (clock env (ticks w)))
             (get_expiry env (sign env user (clock env (ticks w))))
             (random_token env (draws w)) ∧
    db w' = {| user_table := user_table (db w);
               refresh_token_table :=
                 (refresh_token_table (db w) ++ [issued_row env w 1 user])%list |}.
Proof.
  intros Hrun. apply Session_begin_returned_inv in Hrun.
  apply credentials_inner_exit_of in Hrun.
  inversion Hrun as [| | | | | |username password user Hu Hp Hrows Hok Hfresh]; subst.
  apply (filter_key_found dbm.username) in Hrows as [Hin <-].
  exists user, password. done.
Qed.

(** X2. A stored user who supplies the right password is let in: with
    unique usernames and a draw that is not a stored token, the login
    returns the envelope and stores the new refresh token for that user,
    expiring one lifetime after the second clock reading. *)
Theorem login_grants (req : request.t) (w : World) user password :
  NoDup (dbm.username <$> user_table (db w)) →
  supplied "username" req = Some (dbm.username user) →
  supplied "password" req = Some password →
  user ∈ user_table (db w) →
  check_password_hash env (dbm.password_hash user) password = true →
  random_token env (draws w) ∉ stored_tokens w →
  credentials env req w =
    (Returned (envelope (sign env user (clock env (ticks w)))
                 (get_expiry env (sign env user (clock env (ticks w))))
                 (random_token env (draws w))),
     {| db := {| user_table := user_table (db w);
                 refresh_token_table :=
                   (refresh_token_table (db w) ++ [issued_row env w 1 user])%list |};
        ticks := 2 + ticks w;
        draws := S (draws w) |}).
Proof.
  intros Hnd Hu Hp Hin Hok Hfresh. apply Session_begin_commits.
  assert (is_Some (request.content_type req)) as Hct.
  { unfold supplied in Hu. destruct (request.content_type req); [eauto|done]. }
  rewrite credentials_inner_unfold, Hu, Hp by done.
  unfold_handler. rewrite (filter_key_unique dbm.username user) by done; simpl.
  rewrite Hok; simpl. by rewrite decide_False.
Qed.

(** X3. A login that fails stores nothing: whatever it raises, inside or
    around the transaction, the database is the one before the call. *)
Theorem failed_login_keeps_storage (req : request.t) (w : World) e w' :
  _credentials_inner env req w = (Raised e, w') ∨ credentials env req w = (Raised e, w') →
  db w' = db w.
Proof.
  intros Hrun. apply credentials_outcomes in Hrun as [(e' & _ & Hdb)|(resp & Hno & _)]; done.
Qed.

(** X4. The login never deletes a refresh token: every row stored before a
    login, expired or not, is still stored after it, however it ends. *)
Theorem login_keeps_stored_tokens (req : request.t) (w : World) r :
  r ∈ refresh_token_table (db w) →
  r ∈ refresh_token_table (db (credentials env req w).2).
Proof.
  intros Hr. destruct (credentials_table env req w) as [->|(user & _ & _ & ->)]; [done|].
  apply elem_of_app. by left.
Qed.

(** X18. The login raises the type error exactly for the requests that
    carry no Content-Type. *)
Theorem login_type_error_iff (req : request.t) (w : World) :
  (credentials env req w).1 = Raised TypeError ↔ request.content_type req = None.
Proof.
  unfold credentials. rewrite Session_begin_outcome. split.
  - intros Hout. pose proof (credentials_inner_exits env req w) as Hex.
    rewrite Hout in Hex. by inversion Hex.
  - intros Hct. unfold _credentials_inner. by rewrite Hct.
Qed.

(** X19. The refusals of the login are justified: a BadRequest or an
    Unauthorized it raises is the one [login_refusal] prescribes for the
    supplied credentials and the stored users. *)
Theorem login_refusals_justified (req : request.t) (w : World) e :
  (credentials env req w).1 = Raised e →
  (∃ message, e = BadRequest message ∨ e = Unauthorized message) →
  login_refusal env (user_table (db w))
    (supplied "username" req) (supplied "password" req) e.
Proof.
  unfold credentials. rewrite Session_begin_outcome.
  intros Hout (message & He). pose proof (credentials_inner_exits env req w) as Hex.
  rewrite Hout in Hex.
  inversion Hex as [ | Hct Hnone | username password Hu Hp Hrows | |
                     username password user Hu Hp Hrows Hbad | | ]; subst;
    try (destruct He; done).
  - by apply refuse_missing.
  - rewrite Hu, Hp. apply refuse_unknown. intros Hin.
    apply list_elem_of_fmap in Hin as (u & Heq & Hu').
    eapply (filter_nil_not_elem_of _ _ u); [exact Hrows|done|done].
  - rewrite Hu, Hp. apply (filter_key_found dbm.username) in Hrows as [Hin <-].
    by apply refuse_mismatch.
Qed.

End LoginProperties.

(** *** The refresh rotation, exit by exit *)

Section RotationProperties.
Variable env : Collaborators.

Lemma filter_length_split {A} (P : A → Prop) `{∀ x, Decision (P x)} (l : list A) :
  (length (filter P l) + length (filter (λ x, ¬ P x) l))%nat = length l.
Proof.
  induction l as [|a l IH]; [done|].
  rewrite !filter_cons. destruct (decide (P a)), (decide (¬ P a)); simpl; try lia; tauto.
Qed.

(** X5. A stored token whose owner is gone: the exchange answers
    Unauthorized("user not found") exactly when the presented token has
    not expired and no stored user has the id the row names. *)
Theorem refresh_orphan_iff (req : request.t) (w : World) T old :
  NoDup (stored_tokens w) →
  presented req = Some T →
  old ∈ refresh_token_table (db w) →
  dbm.token old = T →
  (refresh_token env req w).1 = Raised (Unauthorized "user not found")
  ↔ ¬ (dbm.expire_time old < clock env (ticks w)) ∧
    dbm.user_id old ∉ dbm.id <$> user_table (db w).
Proof.
  intros Htok HT Hold Hkey.
  assert (filter (λ r, dbm.token r = T) (refresh_token_table (db w)) = [old]) as Hrow.
  { subst T. by apply (filter_key_unique dbm.token). }
  unfold refresh_token. rewrite Session_begin_outcome. split.
  - intros Hout. pose proof (refresh_inner_exits env req w) as Hex. rewrite Hout in Hex.
    inversion Hex as [ | | ? ? ? [?|?] | | T0 old0 HT0 Hrow0 Hlive0 Husr0 | ]; subst; try done.
    rewrite HT in HT0. simplify_eq. rewrite Hrow in Hrow0. simplify_eq.
    split; [done|]. intros Hin. apply list_elem_of_fmap in Hin as (u & Heq & Hu).
    eapply (filter_nil_not_elem_of _ _ u); [exact Husr0|done|done].
  - intros [Hlive Hgone]. unfold_handler. rewrite HT, Hrow; simpl.
    rewrite bool_decide_eq_false_2 by done; simpl.
    by rewrite (filter_key_absent dbm.id).
Qed.

(** X6. The exchange answers BadRequest exactly when the request has no
    "refresh-token" header, and then with the message
    "missing refresh-token". *)
Theorem refresh_bad_request_iff (req : request.t) (w : World) message :
  (refresh_token env req w).1 = Raised (BadRequest message)
  ↔ presented req = None ∧ message = "missing refresh-token".
Proof.
  unfold refresh_token. rewrite Session_begin_outcome. split.
  - intros Hout. pose proof (refresh_inner_exits env req w) as Hex. rewrite Hout in Hex.
    inversion Hex as [ | | ? ? ? [?|?] | | | ]; subst; done.
  - intros [Hnone ->]. unfold_handler. by rewrite Hnone.
Qed.

(** X7. The exchange answers Unauthorized("refresh-token invalid")
    exactly when the presented token is not a stored one. *)
Theorem refresh_invalid_iff (req : request.t) (w : World) :
  (refresh_token env req w).1 = Raised (Unauthorized "refresh-token invalid")
  ↔ ∃ T, presented req = Some T ∧ T ∉ stored_tokens w.
Proof.
  unfold refresh_token. rewrite Session_begin_outcome. split.
  - intros Hout. pose proof (refresh_inner_exits env req w) as Hex. rewrite Hout in Hex.
    inversion Hex as [ | T HT Hrow | ? ? ? [?|?] | | | ]; subst; try done.
    exists T. split; [done|]. intros Hin.
    apply list_elem_of_fmap in Hin as (r & Heq & Hr).
    eapply (filter_nil_not_elem_of _ _ r); [exact Hrow|done|done].
  - intros (T & HT & Habs). by rewrite (refresh_inner_absent env req w T).
Qed.

(** X8. The exchange answers with an envelope only for a live token of an
    existing user: whenever it returns, the presented token was stored and
    not expired at the first clock reading, its owner is a stored user, the
    access token is signed for that owner, and the table is the rotated
    one, whose replacement row names the same owner. *)
Theorem rotation_requires_live_token (req : request.t) (w : World) resp w' :
  refresh_token env req w = (Returned resp, w') →
  ∃ old user,
    old ∈ refresh_token_table (db w) ∧
    presented req = Some (dbm.token old) ∧
    ¬ (dbm.expire_time old < clock env (ticks w)) ∧
    user ∈ user_table (db w) ∧
    dbm.id user = dbm.user_id old ∧
    resp = envelope (sign env user (clock env (1 + ticks w)))
             (get_expiry env (sign env user (clock env (1 + ticks w))))
             (random_token env (draws w)) ∧
    refresh_token_table (db w') = rotated_table env w old user.
Proof.
  intros Hrun. apply Session_begin_returned_inv in Hrun.
  apply refresh_inner_exit_of in Hrun.
  inversion Hrun as [| | | | |T old user HT Hrow Hlive Husr Hfresh]; subst.
  apply (filter_key_found dbm.token) in Hrow as [Hold <-].
  apply (filter_key_found dbm.id) in Husr as [Huser Hid].
  exists old, user. done.
Qed.

(** X9. A rotation leaves the other sessions alone: after an exchange that
    returns, every row stored before it, other than the presented one and
    not expired at the instant of the purge, is still stored. *)
Theorem rotation_keeps_live_tokens (req : request.t) (w : World) resp w' r :
  refresh_token env req w = (Returned resp, w') →
  r ∈ refresh_token_table (db w) →
  presented req ≠ Some (dbm.token r) →
  ¬ (dbm.expire_time r < last_reading env w') →
  r ∈ refresh_token_table (db w').
Proof.
  intros Hrun Hr Hother Hlive. apply Session_begin_returned_inv in Hrun.
  apply refresh_inner_exit_of in Hrun.
  inversion Hrun as [| | | | |T old user HT Hrow _ _ _]; subst.
  unfold last_reading in Hlive. simpl in *. unfold rotated_table.
  apply (filter_key_found dbm.token) in Hrow as [_ Hkey].
  apply list_elem_of_filter. split; [done|].
  apply list_elem_of_filter. split; [|apply elem_of_app; by left].
  intros Heq. apply Hother. rewrite HT. f_equal. congruence.
Qed.

(** X10. An exchange never grows the table: however it ends, at most as
    many refresh tokens are stored after it as before. *)
Theorem refresh_never_grows_table (req : request.t) (w : World) :
  (length (refresh_token_table (db (refresh_token env req w).2))
   ≤ length (refresh_token_table (db w)))%nat.
Proof.
  destruct (refresh_table env req w)
    as [->|(old & user & Hold & _ & _ & _ & _ & Hfresh & Hrow & ->)]; [done|].
  unfold rotated_table.
  etrans; [apply length_filter|].
  rewrite filter_app, length_app.
  pose proof (filter_length_split (λ r, dbm.token r = dbm.token old)
                (refresh_token_table (db w))) as Hsplit.
  rewrite Hrow in Hsplit. simpl in Hsplit.
  assert (length (filter (λ r, dbm.token r ≠ dbm.token old)
            [dbm.mkRefreshtoken (random_token env (draws w)) (dbm.id user)
               (clock env (2 + ticks w) + refresh_ttl env)]) ≤ 1)%nat as Hone.
  { etrans; [apply length_filter|]. done. }
  lia.
Qed.

(** X16. The replacement is stored for the same user: after an exchange
    that returns, if the purge read the clock within the lifetime of the
    token just issued, the returned refresh token is stored in a row that
    names the owner of the consumed one. *)
Theorem rotated_token_is_stored (req : request.t) (w : World) resp w' :
  refresh_token env req w = (Returned resp, w') →
  clock env (3 + ticks w) ≤ clock env (2 + ticks w) + refresh_ttl env →
  ∃ old,
    old ∈ refresh_token_table (db w) ∧
    presented req = Some (dbm.token old) ∧
    dbm.mkRefreshtoken (random_token env (draws w)) (dbm.user_id old)
      (clock env (2 + ticks w) + refresh_ttl env) ∈ refresh_token_table (db w').
Proof.
  intros Hrun Hlife. apply Session_begin_returned_inv in Hrun.
  apply refresh_inner_exit_of in Hrun.
  inversion Hrun as [| | | | |T old user HT Hrow Hlive Husr Hfresh]; subst.
  apply (filter_key_found dbm.token) in Hrow as [Hold <-].
  apply (filter_key_found dbm.id) in Husr as [Huser Hid].
  exists old. split; [done|]. split; [done|]. simpl. unfold rotated_table.
  rewrite <- Hid.
  apply list_elem_of_filter. split; [simpl in *; lia|].
  apply list_elem_of_filter. split.
  - simpl. intros Heq. apply Hfresh. rewrite Heq.
    by apply (list_elem_of_fmap_2 dbm.token).
  - apply elem_of_app. right. apply list_elem_of_singleton. done.
Qed.

End RotationProperties.

(** *** Invariants of a deployment *)

Section Deployment.
Variable env : Collaborators.

Lemma Session_begin_draws {A} (body : M A) w :
  draws (Session_begin body w).2 = draws (body w).2.
Proof. unfold Session_begin. by destruct (body w) as [[a|e] w']. Qed.

Lemma refresh_inner_draws req w :
  (draws w ≤ draws (_refresh_token_inner env req w).2)%nat.
Proof.
  unfold_handler. repeat (case_match; simplify_eq; simpl in * ); lia.
Qed.

Lemma credentials_inner_draws req w :
  (draws w ≤ draws (_credentials_inner env req w).2)%nat.
Proof.
  destruct (_credentials_inner env req w) as [out w'] eqn:Hrun.
  apply credentials_inner_exit_of in Hrun. inversion Hrun; subst; simpl; lia.
Qed.

(** The draws only go up. *)
Lemma served_draws w w' : served env w w' → (draws w ≤ draws w')%nat.
Proof.
  intros [req w0|req w0].
  - unfold credentials. rewrite Session_begin_draws. apply credentials_inner_draws.
  - unfold refresh_token. rewrite Session_begin_draws. apply refresh_inner_draws.
Qed.

Lemma rotated_table_rows w old user r :
  r ∈ rotated_table env w old user →
  r ∈ refresh_token_table (db w) ∨ r = issued_row env w 2 user.
Proof.
  unfold rotated_table. intros Hr.
  apply list_elem_of_filter in Hr as [_ Hr]. apply list_elem_of_filter in Hr as [_ Hr].
  apply elem_of_app in Hr as [Hr|Hr]; [by left|].
  right. by apply list_elem_of_singleton in Hr.
Qed.

(** A request stores at most one row that was not stored before: the row
    of the next draw, issued to a stored user. *)
Lemma served_rows w w' r :
  served env w w' →
  r ∈ refresh_token_table (db w') →
  r ∈ refresh_token_table (db w) ∨
  (dbm.token r = random_token env (draws w) ∧
   dbm.user_id r ∈ dbm.id <$> user_table (db w)).
Proof.
  intros [req w0|req w0] Hr.
  - destruct (credentials_table env req w0) as [Heq|(user & Huser & _ & Heq)];
      rewrite Heq in Hr; [by left|].
    apply elem_of_app in Hr as [Hr|Hr]; [by left|].
    apply list_elem_of_singleton in Hr. subst r. right. split; [done|].
    by apply (list_elem_of_fmap_2 dbm.id).
  - destruct (refresh_table env req w0)
      as [Heq|(old & user & _ & _ & _ & Huser & _ & _ & _ & Heq)];
      rewrite Heq in Hr; [by left|].
    apply rotated_table_rows in Hr as [Hr|Hr]; [by left|].
    subst r. right. split; [done|]. by apply (list_elem_of_fmap_2 dbm.id).
Qed.

Lemma served_unique w w' :
  served env w w' → NoDup (stored_tokens w) → NoDup (stored_tokens w').
Proof.
  assert (∀ (w0 : World) row,
    NoDup (stored_tokens w0) → dbm.token row ∉ stored_tokens w0 →
    NoDup (dbm.token <$> (refresh_token_table (db w0) ++ [row])%list)) as Happend.
  { intros w0 row Hnd Hfresh. rewrite fmap_app. apply NoDup_app.
    split; [done|]. split; [|apply NoDup_singleton].
    intros x Hx Hx'. apply list_elem_of_singleton in Hx'. by subst. }
  intros [req w0|req w0] Hnd; unfold stored_tokens.
  - destruct (credentials_table env req w0) as [->|(user & _ & Hfresh & ->)]; [done|].
    by apply Happend.
  - destruct (refresh_table env req w0)
      as [->|(old & user & _ & _ & _ & _ & _ & Hfresh & _ & ->)]; [done|].
    unfold rotated_table. do 2 apply NoDup_key_filter.
    by apply (Happend w0 (issued_row env w0 2 user)).
Qed.

(** X11. Neither handler writes the user table: after any chain of login
    and refresh requests the stored users are the initial ones. *)
Theorem users_never_written (w w' : World) :
  rtc (served env) w w' → user_table (db w') = user_table (db w).
Proof.
  induction 1 as [|w1 w2 w3 Hstep _ IH]; [done|].
  rewrite IH. by apply (served_users env).
Qed.

(** X12. The stored tokens stay unique: if no two rows share a token, no
    chain of login and refresh requests makes two rows share one. *)
Theorem tokens_stay_unique (w w' : World) :
  NoDup (stored_tokens w) → rtc (served env) w w' → NoDup (stored_tokens w').
Proof.
  intros Hnd Hchain. induction Hchain as [|w1 w2 w3 Hstep _ IH]; [done|].
  apply IH. by eapply served_unique.
Qed.

(** X13. Every stored token keeps an owner: if each row names a stored
    user, so does each row after any chain of login and refresh
    requests. *)
Theorem owners_stay_existing (w w' : World) :
  owners_exist (db w) → rtc (served env) w w' → owners_exist (db w').
Proof.
  intros Hown Hchain. induction Hchain as [|w1 w2 w3 Hstep _ IH]; [done|].
  apply IH. intros r Hr. rewrite (served_users env w1 w2 Hstep).
  destruct (served_rows w1 w2 r Hstep Hr) as [Hold|[_ Hnew]]; [by apply Hown|done].
Qed.

(** X14. A consumed token stays dead: a token that is not stored and that
    the generator does not draw again is stored in no later world, so the
    exchange turns it away as invalid after any chain of login and refresh
    requests. *)
Theorem consumed_token_stays_dead (w w' : World) T :
  T ∉ stored_tokens w →
  (∀ n, (draws w ≤ n)%nat → random_token env n ≠ T) →
  rtc (served env) w w' →
  (T ∉ stored_tokens w') ∧
  (∀ req, presented req = Some T →
     (refresh_token env req w').1 = Raised (Unauthorized "refresh-token invalid")).
Proof.
  intros Habs Hdraw Hchain.
  assert (T ∉ stored_tokens w') as Hdead.
  { induction Hchain as [|w1 w2 w3 Hstep _ IH]; [done|]. apply IH.
    - intros Hin. apply list_elem_of_fmap in Hin as (r & -> & Hr).
      destruct (served_rows w1 w2 r Hstep Hr) as [Hold|[Hnew _]].
      + apply Habs. by apply (list_elem_of_fmap_2 dbm.token).
      + by apply (Hdraw (draws w1)).
    - intros n Hn. apply Hdraw. apply served_draws in Hstep. lia. }
  split; [done|]. intros req HT. unfold refresh_token.
  rewrite Session_begin_outcome. by rewrite (refresh_inner_absent env req w' T).
Qed.

(** X15. What the login issues, the exchange accepts: after a login that
    returns, a request presenting the returned refresh token is answered
    with a new envelope, provided the token has not expired at the next
    clock reading and the next draw is not a stored token. *)
Theorem login_token_is_refreshable (req req' : request.t) (w : World) resp w' :
  NoDup (stored_tokens w) →
  NoDup (dbm.id <$> user_table (db w)) →
  credentials env req w = (Returned resp, w') →
  presented req' = Some (random_token env (draws w)) →
  ¬ (clock env (1 + ticks w) + refresh_ttl env < clock env (ticks w')) →
  random_token env (draws w') ∉ stored_tokens w' →
  ∃ access_token expires_in w'',
    refresh_token env req' w' =
      (Returned (envelope access_token expires_in (random_token env (draws w'))), w'').
Proof.
  intros Htok Hids Hrun HT Hlive Hfresh'.
  apply Session_begin_returned_inv in Hrun. apply credentials_inner_exit_of in Hrun.
  inversion Hrun as [| | | | | |username password user Hu Hp Hrows Hok Hfresh]; subst.
  apply (filter_key_found dbm.username) in Hrows as [Huser _].
  eexists _, _, _. apply Session_begin_commits.
  apply (refresh_inner_returns env req' _ (random_token env (draws w))
           (issued_row env w 1 user) user); simpl in *; try done.
  - rewrite filter_app. rewrite (filter_key_absent dbm.token) by done.
    by rewrite filter_cons_True.
  - by apply (filter_key_unique dbm.id).
Qed.

End Deployment.

(** *** The content-type test *)

Lemma append_cons (a : Ascii.ascii) (x y : string) :
  String a x +:+ y = String a (x +:+ y).
Proof. reflexivity. Qed.

Lemma append_empty (y : string) : "" +:+ y = y.
Proof. reflexivity. Qed.

Lemma prefix_app (x s : string) :
  String.prefix x s = true ↔ ∃ post, s = x +:+ post.
Proof.
  revert s. induction x as [|a x IH]; intros s.
  - split; [intros _; by exists s|intros _; by destruct s].
  - destruct s as [|b s].
    { split; [done|]. intros [post Hpost]. by rewrite append_cons in Hpost. }
    cbn. destruct (Ascii.ascii_dec a b) as [->|Hne].
    + rewrite IH. split; intros [post Hpost]; exists post.
      * by rewrite append_cons, Hpost.
      * rewrite append_cons in Hpost. by simplify_eq.
    + split; [done|]. intros [post Hpost]. rewrite append_cons in Hpost. by simplify_eq.
Qed.

(** X17. The test of line 31 is the substring test: [str_in x s] holds
    exactly when [s] is [x] with something before and something after, so
    the login reads the form for every content type that mentions the form
    media type anywhere, parameters included. *)
Theorem str_in_substring (x s : string) :
  str_in x s = true ↔ ∃ pre post, s = pre +:+ x +:+ post.
Proof.
  induction s as [|a s IH]; cbn [str_in].
  - destruct (String.prefix x "") eqn:Hpre.
    + split; [intros _|done]. apply prefix_app in Hpre as [post Hpost].
      by exists "", post.
    + split; [done|]. intros (pre & post & Heq).
      destruct pre; [|by rewrite append_cons in Heq]. rewrite append_empty in Heq.
      assert (String.prefix x "" = true) as Habs by (apply prefix_app; eauto).
      congruence.
  - destruct (String.prefix x (String a s)) eqn:Hpre.
    + split; [intros _|done]. apply prefix_app in Hpre as [post Hpost].
      by exists "", post.
    + rewrite IH. split.
      * intros (pre & post & ->). by exists (String a pre), post.
      * intros (pre & post & Heq). destruct pre as [|b pre].
        { rewrite append_empty in Heq.
          assert (String.prefix x (String a s) = true) as Habs by (apply prefix_app; eauto).
          congruence. }
        rewrite append_cons in Heq. simplify_eq. by exists pre, post.
Qed.

(** ** The further properties on the small deployment *)

Example later_world_tokens :
  refresh_token_table (db later_world) =
    [ dbm.mkRefreshtoken "N-" 7 2593002; dbm.mkRefreshtoken "N-I" 7 2593005 ].
Proof. vm_compute. reflexivity. Qed.

Lemma demo_chain : rtc (served demo_env) demo_world later_world.
Proof.
  eapply rtc_l; [apply (served_refresh demo_env (refresh_request "R1") demo_world)|].
  eapply rtc_l; [|apply rtc_refl].
  apply (served_login demo_env (login_request "alice" "secret123") rotated_world).
Qed.

Lemma login_requires_verified_password_witness :
  ∃ user password,
    supplied "username" (login_request "alice" "secret123") = Some (dbm.username user) ∧
    supplied "password" (login_request "alice" "secret123") = Some password ∧
    user ∈ user_table (db demo_world) ∧
    check_password_hash demo_env (dbm.password_hash user) password = true ∧
    envelope "jwt.alice" 3600 "N-"
      = envelope (sign demo_env user (clock demo_env (ticks demo_world)))
          (get_expiry demo_env (sign demo_env user (clock demo_env (ticks demo_world))))
          (random_token demo_env (draws demo_world)) ∧
    db (credentials demo_env (login_request "alice" "secret123") demo_world).2
      = {| user_table := user_table (db demo_world);
           refresh_token_table :=
             (refresh_token_table (db demo_world) ++ [issued_row demo_env demo_world 1 user])%list |}.
Proof.
  apply (login_requires_verified_password demo_env (login_request "alice" "secret123")
           demo_world).
  vm_compute. reflexivity.
Defined.

Lemma login_grants_witness :
  credentials demo_env (form_login_request "alice" "secret123") demo_world =
    (Returned (envelope (sign demo_env alice (clock demo_env (ticks demo_world)))
                 (get_expiry demo_env (sign demo_env alice (clock demo_env (ticks demo_world))))
                 (random_token demo_env (draws demo_world))),
     {| db := {| user_table := user_table (db demo_world);
                 refresh_token_table :=
                   (refresh_token_table (db demo_world)
                      ++ [issued_row demo_env demo_world 1 alice])%list |};
        ticks := 2 + ticks demo_world;
        draws := S (draws demo_world) |}).
Proof.
  apply (login_grants demo_env (form_login_request "alice" "secret123") demo_world
           alice "secret123").
  - evaluate.
  - vm_compute. reflexivity.
  - vm_compute. reflexivity.
  - evaluate.
  - vm_compute. reflexivity.
  - evaluate.
Defined.

Lemma failed_login_keeps_storage_witness :
  db (credentials demo_env (login_request "alice" "wrong") demo_world).2 = db demo_world.
Proof.
  apply (failed_login_keeps_storage demo_env (login_request "alice" "wrong") demo_world
           (Unauthorized "password does not match")).
  right. vm_compute. reflexivity.
Defined.

Lemma login_keeps_stored_tokens_witness :
  dbm.mkRefreshtoken "Old" 7 10
    ∈ refresh_token_table
        (db (credentials demo_env (login_request "alice" "secret123") demo_world).2).
Proof.
  apply (login_keeps_stored_tokens demo_env (login_request "alice" "secret123") demo_world).
  evaluate.
Defined.

Lemma login_refusals_justified_witness :
  login_refusal demo_env (user_table (db demo_world))
    (supplied "username" (login_request "alice" "wrong"))
    (supplied "password" (login_request "alice" "wrong"))
    (Unauthorized "password does not match").
Proof.
  apply (login_refusals_justified demo_env (login_request "alice" "wrong") demo_world).
  - vm_compute. reflexivity.
  - exists "password does not match". right. reflexivity.
Defined.

Lemma refresh_orphan_iff_witness :
  (refresh_token demo_env (refresh_request "Lost") orphan_world).1
    = Raised (Unauthorized "user not found")
  ↔ ¬ (dbm.expire_time (dbm.mkRefreshtoken "Lost" 9 5000)
         < clock demo_env (ticks orphan_world)) ∧
    dbm.user_id (dbm.mkRefreshtoken "Lost" 9 5000)
      ∉ dbm.id <$> user_table (db orphan_world).
Proof.
  apply (refresh_orphan_iff demo_env (refresh_request "Lost") orphan_world "Lost").
  - evaluate.
  - reflexivity.
  - evaluate.
  - reflexivity.
Defined.

(** On the deployment with the orphan row the right-hand side holds, and
    the exchange does answer "user not found". *)
Example lost_token_is_refused :
  (refresh_token demo_env (refresh_request "Lost") orphan_world).1
    = Raised (Unauthorized "user not found").
Proof. vm_compute. reflexivity. Qed.

Lemma rotation_requires_live_token_witness :
  ∃ old user,
    old ∈ refresh_token_table (db demo_world) ∧
    presented (refresh_request "R1") = Some (dbm.token old) ∧
    ¬ (dbm.expire_time old < clock demo_env (ticks demo_world)) ∧
    user ∈ user_table (db demo_world) ∧
    dbm.id user = dbm.user_id old ∧
    envelope "jwt.alice" 3600 "N-"
      = envelope (sign demo_env user (clock demo_env (1 + ticks demo_world)))
          (get_expiry demo_env (sign demo_env user (clock demo_env (1 + ticks demo_world))))
          (random_token demo_env (draws demo_world)) ∧
    refresh_token_table (db rotated_world) = rotated_table demo_env demo_world old user.
Proof.
  apply (rotation_requires_live_token demo_env (refresh_request "R1") demo_world).
  vm_compute. reflexivity.
Defined.

Lemma rotation_keeps_live_tokens_witness :
  dbm.mkRefreshtoken "R1" 7 5000
    ∈ refresh_token_table (db (refresh_token demo_env (refresh_request "E") demo_world).2).
Proof.
  apply (rotation_keeps_live_tokens demo_env (refresh_request "E") demo_world
           (envelope "jwt.alice" 3600 "N-")).
  - vm_compute. reflexivity.
  - evaluate.
  - vm_compute. discriminate.
  - vm_compute. discriminate.
Defined.

Lemma rotated_token_is_stored_witness :
  ∃ old,
    old ∈ refresh_token_table (db demo_world) ∧
    presented (refresh_request "R1") = Some (dbm.token old) ∧
    dbm.mkRefreshtoken (random_token demo_env (draws demo_world)) (dbm.user_id old)
      (clock demo_env (2 + ticks demo_world) + refresh_ttl demo_env)
      ∈ refresh_token_table (db rotated_world).
Proof.
  apply (rotated_token_is_stored demo_env (refresh_request "R1") demo_world
           (envelope "jwt.alice" 3600 "N-")).
  - vm_compute. reflexivity.
  - simpl. lia.
Defined.

Lemma users_never_written_witness :
  user_table (db later_world) = user_table (db demo_world).
Proof.
  apply (users_never_written demo_env demo_world later_world). exact demo_chain.
Defined.

Lemma tokens_stay_unique_witness : NoDup (stored_tokens later_world).
Proof.
  apply (tokens_stay_unique demo_env demo_world later_world).
  - evaluate.
  - exact demo_chain.
Defined.

Lemma owners_stay_existing_witness : owners_exist (db later_world).
Proof.
  apply (owners_stay_existing demo_env demo_world later_world).
  - intros r Hr. simpl in Hr.
    repeat (apply elem_of_cons in Hr as [->|Hr]; [evaluate|]).
    by apply elem_of_nil in Hr.
  - exact demo_chain.
Defined.

Lemma consumed_token_stays_dead_witness :
  ("R1" ∉ stored_tokens later_world) ∧
  (∀ req, presented req = Some "R1" →
     (refresh_token demo_env req later_world).1
       = Raised (Unauthorized "refresh-token invalid")).
Proof.
  apply (consumed_token_stays_dead demo_env rotated_world later_world "R1").
  - evaluate.
  - intros n _. cbn. discriminate.
  - eapply rtc_l; [|apply rtc_refl].
    apply (served_login demo_env (login_request "alice" "secret123") rotated_world).
Defined.

Lemma login_token_is_refreshable_witness :
  ∃ access_token expires_in w'',
    refresh_token demo_env (refresh_request "N-")
      (credentials demo_env (login_request "alice" "secret123") demo_world).2
    = (Returned (envelope access_token expires_in
                   (random_token demo_env
                      (draws (credentials demo_env (login_request "alice" "secret123")
                                demo_world).2))),
       w'').
Proof.
  apply (login_token_is_refreshable demo_env (login_request "alice" "secret123")
           (refresh_request "N-") demo_world (envelope "jwt.alice" 3600 "N-")).
  - evaluate.
  - evaluate.
  - vm_compute. reflexivity.
  - reflexivity.
  - vm_compute. discriminate.
  - evaluate.
Defined.

(** ** Interrupted and racing exchanges *)

Section Interruptions.
Variable env : Collaborators.

Lemma checkpoint_none fault i w : checkpoint None fault i w = (Returned (), w).
Proof. reflexivity. Qed.

Lemma uninterrupted_inner fault req w :
  _refresh_token_inner_interrupted env None fault req w = _refresh_token_inner env req w.
Proof.
  unfold _refresh_token_inner_interrupted, _refresh_token_inner, checkpoint.
  unfold mbind, M_bind, mret, M_ret. simpl.
  repeat (case_match; simplify_eq; simpl in * ; try reflexivity).
Qed.

(** Unfolds the marked handler down to its effect on the world. *)
Ltac unfold_interrupted :=
  unfold refresh_token_interrupted, _refresh_token_inner_interrupted, checkpoint in *;
  unfold_handler.

Ltac cut_cases :=
  repeat (case_decide; simplify_eq; simpl in * ).

Lemma interrupted_inner_states cut fault req w :
  (∃ e, (_refresh_token_inner_interrupted env cut fault req w).1 = Raised e ∧
        db (_refresh_token_inner_interrupted env cut fault req w).2 = db w) ∨
  (∃ old user,
     presented req = Some (dbm.token old) ∧
     filter (λ r, dbm.token r = dbm.token old) (refresh_token_table (db w)) = [old] ∧
     filter (λ u, dbm.id u = dbm.user_id old) (user_table (db w)) = [user] ∧
     (random_token env (draws w) ∉ stored_tokens w) ∧
     user_table (db (_refresh_token_inner_interrupted env cut fault req w).2)
       = user_table (db w) ∧
     (((_refresh_token_inner_interrupted env cut fault req w).1 = Raised fault ∧
       refresh_token_table (db (_refresh_token_inner_interrupted env cut fault req w).2)
         = (refresh_token_table (db w) ++ [issued_row env w 2 user])%list) ∨
      ((_refresh_token_inner_interrupted env cut fault req w).1 = Raised fault ∧
       refresh_token_table (db (_refresh_token_inner_interrupted env cut fault req w).2)
         = filter (λ r, dbm.token r ≠ dbm.token old)
             ((refresh_token_table (db w) ++ [issued_row env w 2 user])%list)) ∨
      ((_refresh_token_inner_interrupted env cut fault req w).1 = Raised fault ∧
       refresh_token_table (db (_refresh_token_inner_interrupted env cut fault req w).2)
         = rotated_table env w old user) ∨
      ((_refresh_token_inner_interrupted env cut fault req w).1
         = Returned (envelope (sign env user (clock env (1 + ticks w)))
                       (get_expiry env (sign env user (clock env (1 + ticks w))))
                       (random_token env (draws w))) ∧
       refresh_token_table (db (_refresh_token_inner_interrupted env cut fault req w).2)
         = rotated_table env w old user))).
Proof.
  destruct (presented req) as [T|] eqn:HT.
  2:{ left. unfold_interrupted. rewrite HT. eauto. }
  pose proof HT as HT'. unfold presented in HT'.
  destruct (filter (λ r, dbm.token r = T) (refresh_token_table (db w)))
    as [|old [|? ?]] eqn:Hold.
  1,3: left; unfold_interrupted; rewrite HT'; cut_cases; rewrite ?Hold; eauto.
  destruct (decide (dbm.expire_time old < clock env (ticks w))) as [Hexp|Hlive].
  { left. unfold_interrupted. rewrite HT'. cut_cases; rewrite ?Hold; simpl;
      rewrite ?bool_decide_eq_true_2 by done; eauto. }
  destruct (filter (λ u, dbm.id u = dbm.user_id old) (user_table (db w)))
    as [|user [|? ?]] eqn:Huser.
  1,3: left; unfold_interrupted; rewrite HT'; cut_cases; rewrite ?Hold; simpl;
       rewrite ?bool_decide_eq_false_2 by done; simpl; cut_cases; rewrite ?Huser; eauto.
  destruct (decide (random_token env (draws w) ∈ stored_tokens w)) as [Hdup|Hfresh].
  { left. unfold_interrupted. rewrite HT'. cut_cases; rewrite ?Hold; simpl;
      rewrite ?bool_decide_eq_false_2 by done; simpl; cut_cases; rewrite ?Huser; simpl;
      cut_cases; rewrite ?decide_True by done; eauto. }
  pose proof (filter_key_found dbm.token _ _ _ Hold) as [_ Hkey]. subst T.
  destruct (decide (cut = Some 0%nat ∨ cut = Some 1%nat ∨ cut = Some 2%nat ∨ cut = Some 3%nat))
    as [Hearly|Hlate].
  { left. unfold_interrupted. rewrite HT'.
    destruct Hearly as [-> | [-> | [-> | ->]]]; cut_cases; rewrite ?Hold; simpl;
      rewrite ?bool_decide_eq_false_2 by done; simpl; cut_cases; rewrite ?Huser; simpl;
      cut_cases; eauto. }
  right. exists old, user. split; [done|]. split; [done|]. split; [done|]. split; [done|].
  unfold_interrupted. rewrite HT'.
  destruct (decide (cut = Some 0%nat)); [tauto|]. simpl. rewrite Hold; simpl.
  rewrite bool_decide_eq_false_2 by done; simpl.
  destruct (decide (cut = Some 1%nat)); [tauto|]. simpl. rewrite Huser; simpl.
  destruct (decide (cut = Some 2%nat)); [tauto|]. simpl.
  destruct (decide (cut = Some 3%nat)); [tauto|]. simpl.
  rewrite decide_False by done. simpl.
  destruct (decide (cut = Some 4%nat)); simpl; [auto|].
  destruct (decide (cut = Some 5%nat)); simpl; [auto|].
  destruct (decide (cut = Some 6%nat)); simpl; auto 10.
Qed.

(** C4. The consume step and the minting of the replacement are one
    transaction, and inside it the replacement comes first.  For an
    execution of the exchange cut at any statement boundary by any
    exception (and for the execution left alone, which is the handler
    itself): while the transaction is open, the presented token is gone
    from the session's table only after the replacement row has been
    added to it; once the transaction is over, either the call raised and
    the database is the one before the call, with the old token unconsumed
    and no replacement stored, or the call returned the envelope with the
    new token, different from the old one, the old row is deleted and the
    table is the rotated one. *)
Theorem rotation_is_all_or_nothing (cut : option nat) (fault : Exception)
    (req : request.t) (w : World) :
  refresh_token_interrupted env None fault req w = refresh_token env req w ∧
  (∀ T, presented req = Some T →
        T ∈ stored_tokens w →
        T ∉ stored_tokens (_refresh_token_inner_interrupted env cut fault req w).2 →
        ∃ old user,
          dbm.token old = T ∧
          (random_token env (draws w) ∉ stored_tokens w) ∧
          (refresh_token_table (db (_refresh_token_inner_interrupted env cut fault req w).2)
             = filter (λ r, dbm.token r ≠ T)
                 ((refresh_token_table (db w) ++ [issued_row env w 2 user])%list) ∨
           refresh_token_table (db (_refresh_token_inner_interrupted env cut fault req w).2)
             = rotated_table env w old user)) ∧
  ((∃ e, (refresh_token_interrupted env cut fault req w).1 = Raised e ∧
         db (refresh_token_interrupted env cut fault req w).2 = db w) ∨
   (∃ old user,
      presented req = Some (dbm.token old) ∧
      old ∈ refresh_token_table (db w) ∧
      user ∈ user_table (db w) ∧
      (refresh_token_interrupted env cut fault req w).1
        = Returned (envelope (sign env user (clock env (1 + ticks w)))
                      (get_expiry env (sign env user (clock env (1 + ticks w))))
                      (random_token env (draws w))) ∧
      random_token env (draws w) ≠ dbm.token old ∧
      refresh_token_table (db (refresh_token_interrupted env cut fault req w).2)
        = rotated_table env w old user ∧
      dbm.token old ∉ stored_tokens (refresh_token_interrupted env cut fault req w).2)).
Proof.
  split; [|split].
  - unfold refresh_token_interrupted, refresh_token, Session_begin.
    by rewrite uninterrupted_inner.
  - intros T HT Hin Hgone.
    destruct (interrupted_inner_states cut fault req w)
      as [(e & _ & Hdb)|(old & user & HT' & Hold & _ & Hfresh & _ & Hstate)].
    { exfalso. apply Hgone. unfold stored_tokens. by rewrite Hdb. }
    rewrite HT in HT'. simplify_eq. exists old, user. split; [done|]. split; [done|].
    destruct Hstate as [[_ Htab]|[[_ Htab]|[[_ Htab]|[_ Htab]]]]; auto.
    exfalso. apply Hgone. unfold stored_tokens. rewrite Htab, fmap_app.
    apply elem_of_app. by left.
  - unfold refresh_token_interrupted, Session_begin.
    destruct (interrupted_inner_states cut fault req w)
      as [(e & Hout & Hdb)|(old & user & HT & Hold & Huser & Hfresh & _ & Hstate)].
    { destruct (_refresh_token_inner_interrupted env cut fault req w) as [[resp|e'] w1];
        simpl in *; [done|]. left. by exists e'. }
    destruct Hstate as [[Hout Htab]|[[Hout Htab]|[[Hout Htab]|[Hout Htab]]]];
      destruct (_refresh_token_inner_interrupted env cut fault req w) as [[resp|e'] w1];
      simpl in *; try done; try (left; by exists e').
    right. exists old, user.
    apply (filter_key_found dbm.token) in Hold as [Hmem _].
    apply (filter_key_found dbm.id) in Huser as [Husr _].
    split; [done|]. split; [done|]. split; [done|]. split; [done|].
    split; [|split; [done|]].
    + intros Heq. apply Hfresh. rewrite Heq. by apply (list_elem_of_fmap_2 dbm.token).
    + unfold stored_tokens. rewrite Htab. apply rotated_table_drops_old.
Qed.

(** C2, on the code.  Two exchanges that race for the same stored, live
    token both succeed: the handler reads the row with a plain select and
    deletes it unconditionally, so the second call, reading before the
    first has committed, finds the row too and returns an envelope of its
    own, with another new refresh token.  Nothing makes it fail with
    Unauthorized. *)
Theorem racing_exchanges_both_return (req1 req2 : request.t) (w : World) T old user :
  NoDup (stored_tokens w) →
  NoDup (dbm.id <$> user_table (db w)) →
  presented req1 = Some T →
  presented req2 = Some T →
  old ∈ refresh_token_table (db w) →
  dbm.token old = T →
  ¬ (dbm.expire_time old < clock env (ticks w)) →
  ¬ (dbm.expire_time old < clock env (4 + ticks w)) →
  user ∈ user_table (db w) →
  dbm.id user = dbm.user_id old →
  random_token env (draws w) ∉ stored_tokens w →
  random_token env (S (draws w)) ∉ stored_tokens w →
  racing env req1 req2 w =
    (Returned (envelope (sign env user (clock env (1 + ticks w)))
                 (get_expiry env (sign env user (clock env (1 + ticks w))))
                 (random_token env (draws w))),
     Returned (envelope (sign env user (clock env (5 + ticks w)))
                 (get_expiry env (sign env user (clock env (5 + ticks w))))
                 (random_token env (S (draws w))))).
Proof.
  intros Htok Hids HT1 HT2 Hold Hkey Hlive1 Hlive2 Huser Hown Hfresh1 Hfresh2.
  assert (filter (λ r, dbm.token r = T) (refresh_token_table (db w)) = [old]) as Hrow.
  { subst T. by apply (filter_key_unique dbm.token). }
  assert (filter (λ u, dbm.id u = dbm.user_id old) (user_table (db w)) = [user]) as Husr.
  { rewrite <- Hown. by apply (filter_key_unique dbm.id). }
  unfold racing, refresh_token.
  rewrite (Session_begin_commits _ _ _ _
             (refresh_inner_returns env req1 w T old user HT1 Hrow Hlive1 Husr Hfresh1)).
  cbn [fst snd].
  match goal with |- context [snapshot w ?w1] => set (seen := snapshot w w1) end.
  assert (_refresh_token_inner env req2 seen =
    (Returned (envelope (sign env user (clock env (1 + ticks seen)))
                 (get_expiry env (sign env user (clock env (1 + ticks seen))))
                 (random_token env (draws seen))),
     {| db := {| user_table := user_table (db seen);
                 refresh_token_table := rotated_table env seen old user |};
        ticks := 4 + ticks seen;
        draws := S (draws seen) |})) as Hrun2.
  { by apply (refresh_inner_returns env req2 seen T old user). }
  by rewrite (Session_begin_commits _ _ _ _ Hrun2).
Qed.

End Interruptions.

(** ** The source of the login's fields *)

Lemma str_in_prefix (x s : string) : String.prefix x s = true → str_in x s = true.
Proof. intros Hpre. destruct s; cbn [str_in]; by rewrite Hpre. Qed.

Lemma str_in_intro (x pre post : string) : str_in x (pre +:+ x +:+ post) = true.
Proof.
  induction pre as [|a pre IH].
  - rewrite append_empty. apply str_in_prefix, prefix_app. by exists post.
  - rewrite append_cons. cbn [str_in].
    by destruct (String.prefix x (String a (pre +:+ x +:+ post))).
Qed.

Lemma str_in_elim (x s : string) :
  str_in x s = true → ∃ pre post, s = pre +:+ x +:+ post.
Proof.
  induction s as [|a s IH]; cbn [str_in].
  - destruct (String.prefix x "") eqn:Hpre; [|done]. intros _.
    apply prefix_app in Hpre as [post Hpost]. by exists "", post.
  - destruct (String.prefix x (String a s)) eqn:Hpre.
    + intros _. apply prefix_app in Hpre as [post Hpost]. by exists "", post.
    + intros (pre & post & ->)%IH. by exists (String a pre), post.
Qed.

Section FieldSource.
Variable env : Collaborators.

(** C10. The login reads username and password from the form body when
    the Content-Type contains "application/x-www-form-urlencoded" - with
    any text before and after it - and from the headers "username" and
    "password" when it does not; without a Content-Type the membership
    test raises a type error, whatever the form and the headers hold,
    before any BadRequest or Unauthorized and without touching the
    world. *)
Theorem credentials_field_source (content_type : option string)
    (form headers : gmap string string)
    (source : option (gmap string string)) (w : World) :
  field_source form headers content_type source →
  _credentials_inner env (request.mk content_type form headers) w =
    match source with
    | None => (Raised TypeError, w)
    | Some fields =>
        credentials_checked env (fields !! "username") (fields !! "password") w
    end.
Proof.
  intros Hsource. rewrite credentials_inner_branches.
  destruct Hsource as [|pre post|content_type Hnot].
  - done.
  - by rewrite str_in_intro.
  - destruct (str_in "application/x-www-form-urlencoded" content_type) eqn:Hin; [|done].
    apply str_in_elim in Hin as (pre & post & ->). by destruct (Hnot pre post).
Qed.

End FieldSource.

(** ** Interruptions, races and field sources on the small deployment *)

(** The exchange of "R1" cut just before the purge: in the open
    transaction the row of "R1" is already deleted and the replacement
    already added; the rollback restores the table, so "R1" can be
    presented again. *)
Example cut_before_purge_is_rolled_back :
  stored_tokens
    (_refresh_token_inner_interrupted demo_env (Some 5%nat) IntegrityError
       (refresh_request "R1") demo_world).2 = ["E"; "Old"; "N-"] ∧
  refresh_token_interrupted demo_env (Some 5%nat) IntegrityError
    (refresh_request "R1") demo_world
  = (Raised IntegrityError, {| db := db demo_world; ticks := 3; draws := 1 |}).
Proof. split; vm_compute; reflexivity. Qed.

(** Cut just before the delete: the replacement is added and "R1" is
    still there. *)
Example cut_before_delete_keeps_old_row :
  stored_tokens
    (_refresh_token_inner_interrupted demo_env (Some 4%nat) IntegrityError
       (refresh_request "R1") demo_world).2 = ["R1"; "E"; "Old"; "N-"].
Proof. vm_compute. reflexivity. Qed.

Lemma rotation_is_all_or_nothing_witness :
  refresh_token_interrupted demo_env None IntegrityError (refresh_request "R1") demo_world
    = refresh_token demo_env (refresh_request "R1") demo_world ∧
  (∀ T, presented (refresh_request "R1") = Some T →
        T ∈ stored_tokens demo_world →
        T ∉ stored_tokens
              (_refresh_token_inner_interrupted demo_env (Some 5%nat) IntegrityError
                 (refresh_request "R1") demo_world).2 →
        ∃ old user,
          dbm.token old = T ∧
          (random_token demo_env (draws demo_world) ∉ stored_tokens demo_world) ∧
          (refresh_token_table
             (db (_refresh_token_inner_interrupted demo_env (Some 5%nat) IntegrityError
                    (refresh_request "R1") demo_world).2)
             = filter (λ r, dbm.token r ≠ T)
                 ((refresh_token_table (db demo_world)
                     ++ [issued_row demo_env demo_world 2 user])%list) ∨
           refresh_token_table
             (db (_refresh_token_inner_interrupted demo_env (Some 5%nat) IntegrityError
                    (refresh_request "R1") demo_world).2)
             = rotated_table demo_env demo_world old user)) ∧
  ((∃ e, (refresh_token_interrupted demo_env (Some 5%nat) IntegrityError
            (refresh_request "R1") demo_world).1 = Raised e ∧
         db (refresh_token_interrupted demo_env (Some 5%nat) IntegrityError
               (refresh_request "R1") demo_world).2 = db demo_world) ∨
   (∃ old user,
      presented (refresh_request "R1") = Some (dbm.token old) ∧
      old ∈ refresh_token_table (db demo_world) ∧
      user ∈ user_table (db demo_world) ∧
      (refresh_token_interrupted demo_env (Some 5%nat) IntegrityError
         (refresh_request "R1") demo_world).1
        = Returned (envelope (sign demo_env user (clock demo_env (1 + ticks demo_world)))
                      (get_expiry demo_env
                         (sign demo_env user (clock demo_env (1 + ticks demo_world))))
                      (random_token demo_env (draws demo_world))) ∧
      random_token demo_env (draws demo_world) ≠ dbm.token old ∧
      refresh_token_table
        (db (refresh_token_interrupted demo_env (Some 5%nat) IntegrityError
               (refresh_request "R1") demo_world).2)
        = rotated_table demo_env demo_world old user ∧
      dbm.token old
        ∉ stored_tokens
            (refresh_token_interrupted demo_env (Some 5%nat) IntegrityError
               (refresh_request "R1") demo_world).2)).
Proof.
  apply (rotation_is_all_or_nothing demo_env (Some 5%nat) IntegrityError
           (refresh_request "R1") demo_world).
Defined.

Lemma racing_exchanges_both_return_witness :
  racing demo_env (refresh_request "R1") (refresh_request "R1") demo_world =
    (Returned (envelope (sign demo_env alice (clock demo_env (1 + ticks demo_world)))
                 (get_expiry demo_env (sign demo_env alice (clock demo_env (1 + ticks demo_world))))
                 (random_token demo_env (draws demo_world))),
     Returned (envelope (sign demo_env alice (clock demo_env (5 + ticks demo_world)))
                 (get_expiry demo_env (sign demo_env alice (clock demo_env (5 + ticks demo_world))))
                 (random_token demo_env (S (draws demo_world))))).
Proof.
  apply (racing_exchanges_both_return demo_env (refresh_request "R1") (refresh_request "R1")
           demo_world "R1" (dbm.mkRefreshtoken "R1" 7 5000) alice).
  - evaluate.
  - evaluate.
  - reflexivity.
  - reflexivity.
  - evaluate.
  - reflexivity.
  - simpl. lia.
  - simpl. lia.
  - evaluate.
  - reflexivity.
  - evaluate.
  - evaluate.
Defined.

(** The race for "R1", evaluated: one stored token, two envelopes, with
    the new refresh tokens "N-" and "N-I". *)
Example race_for_R1 :
  racing demo_env (refresh_request "R1") (refresh_request "R1") demo_world =
    (Returned (envelope "jwt.alice" 3600 "N-"), Returned (envelope "jwt.alice" 3600 "N-I")).
Proof. vm_compute. reflexivity. Qed.

(** With a form content type the credentials in the headers are not read,
    and with another content type those in the form are not. *)
Example form_request_ignores_headers :
  (credentials demo_env
     (request.mk (Some "application/x-www-form-urlencoded") ∅
        {[ "username" := "alice"; "password" := "secret123" ]}) demo_world).1
    = Raised (BadRequest "missing username or password").
Proof. vm_compute. reflexivity. Qed.

Example json_request_ignores_form :
  (credentials demo_env
     (request.mk (Some "application/json")
        {[ "username" := "alice"; "password" := "secret123" ]} ∅) demo_world).1
    = Raised (BadRequest "missing username or password").
Proof. vm_compute. reflexivity. Qed.

Lemma credentials_field_source_witness :
  _credentials_inner demo_env
    (request.mk None {[ "username" := "alice"; "password" := "secret123" ]}
       {[ "username" := "alice"; "password" := "secret123" ]}) demo_world
    = (Raised TypeError, demo_world) ∧
  _credentials_inner demo_env
    (request.mk (Some ("" +:+ "application/x-www-form-urlencoded" +:+ "; charset=UTF-8"))
       {[ "username" := "alice"; "password" := "secret123" ]} ∅) demo_world
    = credentials_checked demo_env (Some "alice") (Some "secret123") demo_world ∧
  _credentials_inner demo_env
    (request.mk (Some "application/json")
       {[ "username" := "alice"; "password" := "secret123" ]} ∅) demo_world
    = credentials_checked demo_env None None demo_world.
Proof.
  split; [|split].
  - apply (credentials_field_source demo_env None _ _ None demo_world).
    apply source_none.
  - exact (credentials_field_source demo_env
             (Some ("" +:+ "application/x-www-form-urlencoded" +:+ "; charset=UTF-8"))
             {[ "username" := "alice"; "password" := "secret123" ]} ∅
             (Some {[ "username" := "alice"; "password" := "secret123" ]}) demo_world
             (source_form _ _ "" "; charset=UTF-8")).
  - refine (credentials_field_source demo_env (Some "application/json")
              {[ "username" := "alice"; "password" := "secret123" ]} ∅ (Some ∅) demo_world
              (source_headers _ _ "application/json" _)).
    intros pre post Heq.
    pose proof (str_in_intro "application/x-www-form-urlencoded" pre post) as Hin.
    rewrite <- Heq in Hin. vm_compute in Hin. discriminate.
Defined.
